(** * neomodel core: a shallow embedding of [neomodel/core.py]

    The mapping layer of neomodel binds declared record types
    (subclasses of [StructuredNode]) to nodes of a Neo4j graph store
    reached through py2neo.  This development embeds the Python code of
    [core.py] as executable Rocq functions over

    - Python values, class objects and instances (dictionaries are
      [gmap]s, [iteritems] is [map_to_list]);
    - an in-memory model of the graph store the code talks to through
      [self.client] (nodes, relationships, named indexes, write batches),
      together with the journal of the remote calls that were made;
    - a state-and-exception monad: a Python exception aborts the rest of
      the computation but keeps every mutation made so far.

    The properties of the lifecycle controller, of the index manager and
    of the category registry are then proved about these definitions. *)

From stdpp Require Import gmap strings list fin_maps.
From Stdlib Require Import ZArith Ascii String.

Local Open Scope string_scope.
#[local] Set Warnings "-clear-no-such-hyp".

(** ** Python values *)

(** Identity of a node or relationship in the store. *)
Definition entity_id := nat.

(** The values that can sit in an instance [__dict__], in a keyword
    mapping or in the property map of a stored node. *)
Inductive pyvalue :=
| PNone
| PBool (b : bool)
| PInt (z : Z)
| PStr (s : string)
| PNode (n : entity_id)        (* a py2neo node handle *)
| PMethod                      (* an instance of [types.MethodType] *)
| PRelationshipManager.        (* an instance of [RelationshipManager] *)

#[global] Instance pyvalue_eq_dec : EqDecision pyvalue.
Proof. solve_decision. Defined.

(** Python truth value ([if x:] / [not x]).  A node handle is an object
    without a length, hence true. *)
Definition truthy (v : pyvalue) : bool :=
  match v with
  | PNone => false
  | PBool b => b
  | PInt z => negb (Z.eqb z 0)
  | PStr s => negb (String.eqb s "")
  | PNode _ | PMethod | PRelationshipManager => true
  end.

(** [key.startswith('_')] *)
Definition startswith_underscore (key : string) : bool :=
  match key with
  | String c _ => Ascii.eqb c "_"%char
  | EmptyString => false
  end.

(** [str.upper] on ASCII letters. *)
Definition upper_ascii (c : ascii) : ascii :=
  let n := nat_of_ascii c in
  if (97 <=? n)%nat && (n <=? 122)%nat then ascii_of_nat (n - 32) else c.

Fixpoint upper (s : string) : string :=
  match s with
  | EmptyString => EmptyString
  | String c r => String (upper_ascii c) (upper r)
  end.

(** ** Exceptions *)

Inductive error :=
| NoSuchProperty (arg : option string)
| PropertyNotIndexed (key : string)
| RequiredProperty (key : string)
| NotUnique (msg : string)
| DoesNotExist (owner : string) (msg : string)  (* the class made for record type [owner] *)
| PyException (msg : string)                    (* a bare [Exception] *)
| ReadOnlyError (msg : string)
| AttributeError (name : string)
| TypeError (msg : string)
| ValueError (msg : string)
| KeyError (key : string)
| NotImplementedError
| ResourceConflict (uri : string).              (* [rest.ResourceConflict] *)

#[global] Instance error_eq_dec : EqDecision error.
Proof. solve_decision. Defined.

(** ** The state-and-exception monad

    [M S A] is a computation over a mutable state [S] that either
    returns an [A] or raises; the state survives a raise, as Python
    objects do. *)

Inductive outcome (A : Type) :=
| Ok (a : A)
| Raise (e : error).
Arguments Ok {A} a.
Arguments Raise {A} e.

Definition M (S A : Type) : Type := S → outcome A * S.

Definition ret {S A} (a : A) : M S A := λ s, (Ok a, s).
Definition raise {S A} (e : error) : M S A := λ s, (Raise e, s).
Definition bind {S A B} (m : M S A) (k : A → M S B) : M S B :=
  λ s, match m s with
       | (Ok a, s') => k a s'
       | (Raise e, s') => (Raise e, s')
       end.
Definition gets {S A} (f : S → A) : M S A := λ s, (Ok (f s), s).
Definition modify {S} (f : S → S) : M S unit := λ s, (Ok tt, f s).

(** [try: m except Exception: h] where [h] receives the exception. *)
Definition try_except {S A} (m : M S A) (h : error → M S A) : M S A :=
  λ s, match m s with
       | (Ok a, s') => (Ok a, s')
       | (Raise e, s') => h e s'
       end.

Notation "'let!' x := m 'in' k" := (bind m (λ x, k))
  (at level 10, x name, m at level 100, k at level 200, only parsing).
Notation "'let!' ' p := m 'in' k" := (bind m (λ x, match x with p => k end))
  (at level 10, p pattern, m at level 100, k at level 200, only parsing).
Notation "'do!' m 'in' k" := (bind m (λ _, k))
  (at level 10, m at level 100, k at level 200, only parsing).

Definition lift {S A} (o : outcome A) : M S A := λ s, (o, s).

(** [for x in l: body x], stopping at the first exception. *)
Fixpoint for_each {S A} (l : list A) (body : A → M S unit) : M S unit :=
  match l with
  | [] => ret tt
  | x :: r => do! body x in for_each r body
  end.

(** [out = []; for x in l: out.append(body x)] *)
Fixpoint for_collect {S A B} (l : list A) (body : A → M S B) : M S (list B) :=
  match l with
  | [] => ret []
  | x :: r => let! y := body x in
              let! ys := for_collect r body in
              ret (y :: ys)
  end.

(** ** Property descriptors and class objects *)

(** Modelled from the spec: the [Property] class of
    [neomodel/properties.py], which is not part of [core.py].  The
    descriptor is pure data; [core.py] reads the four attributes below
    and calls [validate] (guarded by [hasattr] on assignment), so an
    absent [validate] is [None]. *)
Record Property := {
  required : bool;
  index : bool;
  unique_index : bool;
  is_indexed : bool;
  validate : option (pyvalue → option error)
}.

(** What a name of a class [__dict__] is bound to. *)
Inductive attr :=
| AProperty (p : Property)         (* an instance of a [Property] subclass *)
| ARelationship                    (* a relationship definition *)
| AObject                          (* a function, classmethod or other plain object *)
| ADataDescriptor                  (* a [property] object without a setter *)
| AValue (v : pyvalue)             (* a plain constant *)
| AIndexManager (index_name : string)  (* the [NodeIndexManager] bound to [index] *)
| ADoesNotExist (owner : string).  (* the exception class bound to [DoesNotExist] *)

(** A class object: its [__name__], its own [__dict__] and the rest of
    its method resolution order. *)
#[warnings="-register-all"]
Inductive class :=
| Class (name : string) (dict : gmap string attr) (bases : list class).

Definition cls_name (c : class) : string := let 'Class n _ _ := c in n.
Definition cls_dict (c : class) : gmap string attr := let 'Class _ d _ := c in d.
Definition cls_bases (c : class) : list class := let 'Class _ _ b := c in b.

(** [cls.mro()] *)
Definition mro (c : class) : list class := c :: cls_bases c.

(** Where [getattr(cls, name)] finds [name]: the first class of the MRO
    whose [__dict__] has it. *)
Fixpoint lookup_mro (l : list class) (name : string) : option (class * attr) :=
  match l with
  | [] => None
  | c :: r => match cls_dict c !! name with
              | Some a => Some (c, a)
              | None => lookup_mro r name
              end
  end.

Definition getattr_class (c : class) (name : string) : option attr :=
  snd <$> lookup_mro (mro c) name.

(** Truth value of a class attribute. *)
Definition attr_truthy (a : attr) : bool :=
  match a with
  | AValue v => truthy v
  | _ => true
  end.

(** [issubclass(a.__class__, Property)] *)
Definition is_Property (a : attr) : bool :=
  match a with
  | AProperty _ => true
  | _ => false
  end.

(** ** The graph store

    py2neo and the Neo4j server are outside [core.py]; the code only
    needs the operations below.  The store is modelled in memory: it is
    reliable (no transport failure), and the only errors it produces are
    the ones [core.py] reacts to. *)

Record relationship := {
  rel_id : entity_id;
  rel_start : entity_id;
  rel_type : string;
  rel_end : entity_id
}.

(** One entry of a named index: [(key, value) -> node]. *)
Record index_entry := {
  ie_key : string;
  ie_value : pyvalue;
  ie_node : entity_id
}.

(** Query expressions of [lucenequerybuilder]: [Q(k, v)], [x & y], [x | y]. *)
Inductive query :=
| Q (k : string) (v : pyvalue)
| QAnd (x y : query)
| QOr (x y : query).

(** The entries a [WriteBatch] collects. *)
Inductive batch_op :=
| add_indexed_node_or_fail (idx key : string) (value : pyvalue) (node : entity_id)
| get_or_add_indexed_node (idx key : string) (value : pyvalue) (node : entity_id)
| add_indexed_node (idx key : string) (value : pyvalue) (node : entity_id).

Record batch_result := {
  status : Z;
  uri : string
}.

Inductive entity :=
| ENode (n : entity_id)
| ERel (r : entity_id).

#[global] Instance entity_eq_dec : EqDecision entity.
Proof. solve_decision. Defined.

(** A remote call, as recorded in the journal. *)
Inductive call :=
| CCreate (props : gmap string pyvalue) (start : entity_id) (type : string)
| CGetRelationships (n : entity_id)
| CDelete (l : list entity)
| CGetOrCreateIndex (name : string)
| CIndexQuery (idx : string) (q : query)
| CGetProperties (l : list entity_id)
| CSetProperties (n : entity_id) (props : gmap string pyvalue)
| CIndexRemove (idx : string) (n : entity_id)
| CSubmit (ops : list batch_op)
| CIndexGetOrCreate (idx key : string) (value : pyvalue).

(** The object [category_factory] caches for a record type name. *)
Record CategoryNode := {
  cat_oid : nat;                 (* identity of the Python object *)
  cat_name : string;             (* [category.name] *)
  cat_node : entity_id;          (* [category.__node__] *)
  cat_instance : string          (* relation type of [category.instance] *)
}.

(** State of the process and of the store it is connected to. *)
Record World := {
  nodes : gmap entity_id (gmap string pyvalue);
  rels : list relationship;
  indexes : gmap string (list index_entry);
  next_id : entity_id;
  supports_index_uniqueness_modes : bool;
  journal : list call;
  category_cache : option (gmap string CategoryNode);  (* [category_factory.cache] *)
  next_oid : nat
}.

Definition set_nodes (f : gmap entity_id (gmap string pyvalue) → gmap entity_id (gmap string pyvalue))
    (w : World) : World :=
  {| nodes := f (nodes w); rels := rels w; indexes := indexes w; next_id := next_id w;
     supports_index_uniqueness_modes := supports_index_uniqueness_modes w;
     journal := journal w; category_cache := category_cache w; next_oid := next_oid w |}.

Definition set_rels (f : list relationship → list relationship) (w : World) : World :=
  {| nodes := nodes w; rels := f (rels w); indexes := indexes w; next_id := next_id w;
     supports_index_uniqueness_modes := supports_index_uniqueness_modes w;
     journal := journal w; category_cache := category_cache w; next_oid := next_oid w |}.

Definition set_indexes (f : gmap string (list index_entry) → gmap string (list index_entry))
    (w : World) : World :=
  {| nodes := nodes w; rels := rels w; indexes := f (indexes w); next_id := next_id w;
     supports_index_uniqueness_modes := supports_index_uniqueness_modes w;
     journal := journal w; category_cache := category_cache w; next_oid := next_oid w |}.

Definition set_next_id (f : entity_id → entity_id) (w : World) : World :=
  {| nodes := nodes w; rels := rels w; indexes := indexes w; next_id := f (next_id w);
     supports_index_uniqueness_modes := supports_index_uniqueness_modes w;
     journal := journal w; category_cache := category_cache w; next_oid := next_oid w |}.

Definition set_category_cache (c : option (gmap string CategoryNode)) (w : World) : World :=
  {| nodes := nodes w; rels := rels w; indexes := indexes w; next_id := next_id w;
     supports_index_uniqueness_modes := supports_index_uniqueness_modes w;
     journal := journal w; category_cache := c; next_oid := next_oid w |}.

Definition set_next_oid (f : nat → nat) (w : World) : World :=
  {| nodes := nodes w; rels := rels w; indexes := indexes w; next_id := next_id w;
     supports_index_uniqueness_modes := supports_index_uniqueness_modes w;
     journal := journal w; category_cache := category_cache w; next_oid := f (next_oid w) |}.

(** Every remote call is appended to the journal. *)
Definition remote (c : call) : M World unit :=
  modify (λ w,
  {| nodes := nodes w; rels := rels w; indexes := indexes w; next_id := next_id w;
     supports_index_uniqueness_modes := supports_index_uniqueness_modes w;
     journal := (journal w ++ [c])%list; category_cache := category_cache w;
     next_oid := next_oid w |}).

Definition entries_of (idx : string) (w : World) : list index_entry :=
  default [] (indexes w !! idx).

Definition entry_is (key : string) (value : pyvalue) (e : index_entry) : bool :=
  bool_decide (ie_key e = key ∧ ie_value e = value).

Definition add_entry (idx : string) (e : index_entry)
    (ix : gmap string (list index_entry)) : gmap string (list index_entry) :=
  <[idx := (default [] (ix !! idx) ++ [e])%list]> ix.

(** [client.get_or_create_index(neo4j.Node, name)]; the index handle is
    its name. *)
Definition get_or_create_index (name : string) : M World string :=
  do! remote (CGetOrCreateIndex name) in
  do! modify (set_indexes (λ ix, match ix !! name with
                                 | Some _ => ix
                                 | None => <[name := []]> ix
                                 end)) in
  ret name.

(** Does node [n] satisfy [q] in the entries [es]? *)
Fixpoint matches (es : list index_entry) (n : entity_id) (q : query) : bool :=
  match q with
  | Q k v => existsb (λ e, entry_is k v e && (ie_node e =? n)%nat) es
  | QAnd x y => matches es n x && matches es n y
  | QOr x y => matches es n x || matches es n y
  end.

(** The nodes of index [idx] that satisfy [q], each once. *)
Definition index_hits (idx : string) (q : query) (w : World) : list entity_id :=
  let es := entries_of idx w in
  remove_dups (List.filter (λ n, matches es n q) (ie_node <$> es)).

(** [index.query(str(q))] *)
Definition index_query (idx : string) (q : query) : M World (list entity_id) :=
  do! remote (CIndexQuery idx q) in
  gets (index_hits idx q).

(** [index.remove(entity=node)]: drop every entry of the node. *)
Definition index_remove (idx : string) (n : entity_id) : M World unit :=
  do! remote (CIndexRemove idx n) in
  modify (set_indexes (alter (List.filter (λ e, negb (ie_node e =? n)%nat)) idx)).

(** [client.get_properties] on a list of nodes *)
Definition get_properties (l : list entity_id) : M World (list (gmap string pyvalue)) :=
  do! remote (CGetProperties l) in
  gets (λ w, (λ n, default ∅ (nodes w !! n)) <$> l).

(** [node.set_properties(props)]: replaces the whole property map. *)
Definition set_properties (n : entity_id) (props : gmap string pyvalue) : M World unit :=
  do! remote (CSetProperties n props) in
  modify (set_nodes <[n := props]>).

(** [node.get_relationships()]: every relationship starting or ending
    at the node. *)
Definition get_relationships (n : entity_id) : M World (list entity) :=
  do! remote (CGetRelationships n) in
  gets (λ w, (λ r, ERel (rel_id r)) <$>
             List.filter (λ r, (rel_start r =? n)%nat || (rel_end r =? n)%nat) (rels w)).

(** [client.delete] on a list of entities: one batch removing the listed nodes and
    relationships; index entries of a removed node go with it. *)
Definition client_delete (l : list entity) : M World unit :=
  do! remote (CDelete l) in
  modify (λ w,
    set_indexes (fmap (List.filter (λ e, negb (bool_decide (ENode (ie_node e) ∈ l)))))
      (set_rels (List.filter (λ r, negb (bool_decide (ERel (rel_id r) ∈ l))))
         (set_nodes (filter (λ kv, ENode kv.1 ∉ l)) w))).

(** [client.create(props, (start, type, 0))]: one batch creating the
    node and the relationship [start -type-> node]; returns both. *)
Definition client_create (props : gmap string pyvalue) (start : entity_id) (type : string)
    : M World (pyvalue * entity_id) :=
  do! remote (CCreate props start type) in
  let! n := gets next_id in
  do! modify (λ w,
    set_next_id (λ i, i + 2)%nat
      (set_rels (λ r, (r ++ [{| rel_id := S n; rel_start := start;
                                 rel_type := type; rel_end := n |}])%list)
         (set_nodes <[n := props]> w))) in
  ret (PNode n, S n).

(** [index.get_or_create(key, value, props)]: the node already indexed
    under [(key, value)], or a new node with [props] indexed there. *)
Definition index_get_or_create (idx key : string) (value : pyvalue)
    (props : gmap string pyvalue) : M World entity_id :=
  do! remote (CIndexGetOrCreate idx key value) in
  λ w, match List.find (entry_is key value) (entries_of idx w) with
       | Some e => (Ok (ie_node e), w)
       | None =>
           let n := next_id w in
           (Ok n, set_next_id S
                    (set_indexes (add_entry idx {| ie_key := key; ie_value := value;
                                                   ie_node := n |})
                       (set_nodes <[n := props]> w)))
       end.

(** *** Write batches *)

Definition entry_uri (idx key : string) : string :=
  "index/node/" +:+ idx +:+ "/" +:+ key.

(** The server executing one batch entry on the indexes. *)
Definition run_op (op : batch_op) (ix : gmap string (list index_entry))
    : outcome batch_result * gmap string (list index_entry) :=
  match op with
  | add_indexed_node_or_fail idx k v n =>
      if existsb (entry_is k v) (default [] (ix !! idx))
      then (Raise (ResourceConflict (entry_uri idx k)), ix)
      else (Ok {| status := 201; uri := entry_uri idx k |},
            add_entry idx {| ie_key := k; ie_value := v; ie_node := n |} ix)
  | get_or_add_indexed_node idx k v n =>
      if existsb (entry_is k v) (default [] (ix !! idx))
      then (Ok {| status := 200; uri := entry_uri idx k |}, ix)
      else (Ok {| status := 201; uri := entry_uri idx k |},
            add_entry idx {| ie_key := k; ie_value := v; ie_node := n |} ix)
  | add_indexed_node idx k v n =>
      (Ok {| status := 201; uri := entry_uri idx k |},
       add_entry idx {| ie_key := k; ie_value := v; ie_node := n |} ix)
  end.

Fixpoint run_ops (ops : list batch_op) : M (gmap string (list index_entry)) (list batch_result) :=
  match ops with
  | [] => ret []
  | op :: r => let! x := run_op op in
               let! xs := run_ops r in
               ret (x :: xs)
  end.

(** [batch._submit()]: the batch is one transaction; a conflict raises
    and leaves the indexes as they were. *)
Definition batch_submit (ops : list batch_op) : M World (list batch_result) :=
  do! remote (CSubmit ops) in
  λ w, match run_ops ops (indexes w) with
       | (Ok rs, ix) => (Ok rs, set_indexes (λ _, ix) w)
       | (Raise e, _) => (Raise e, w)
       end.

(** ** Record types

    [StructuredNodeMeta.__new__(cls, name, bases, dct)]: every class
    gets its own [DoesNotExist] exception class, and every class except
    the two base flavours gets an index manager, named after the class
    unless the class body sets [_index_name].  [bases] is the rest of
    the MRO Python computes for the new class, and [type.__new__] binds
    [__doc__] when the body has no docstring. *)
Definition StructuredNodeMeta_new (name : string) (bases : list class)
    (dct : gmap string attr) : class :=
  let dct' := <["DoesNotExist" := ADoesNotExist name]> dct in
  let body := match dct' !! "__doc__" with
              | Some _ => dct'
              | None => <["__doc__" := AValue PNone]> dct'
              end in
  if bool_decide (name ∉ ["StructuredNode"; "ReadOnlyNode"]) then
    let index_name := match dct !! "_index_name" with
                      | Some (AValue (PStr n)) => n
                      | _ => name
                      end in
    Class name (<["index" := AIndexManager index_name]> body) bases
  else Class name body bases.

Definition object_class : class :=
  Class "object"
    (list_to_map [("__init__", AObject); ("__setattr__", AObject);
                  ("__class__", ADataDescriptor); ("__doc__", AValue (PStr "The most base type"))])
    [].

Definition Client_class : class :=
  Class "Client" (list_to_map [("client", ADataDescriptor); ("__doc__", AValue PNone)])
    [object_class].

Definition CypherMixin_class : class :=
  Class "CypherMixin"
    (list_to_map [("cypher", AObject); ("start_cypher", AObject); ("__doc__", AValue PNone)])
    [Client_class; object_class].

(** Modelled from the spec: [RelationshipInstaller] comes from
    [neomodel/relationship.py], which is not part of [core.py]; only its
    constructor is visible from here. *)
Definition RelationshipInstaller_class : class :=
  Class "RelationshipInstaller" (list_to_map [("__init__", AObject); ("__doc__", AValue PNone)])
    [object_class].

Definition StructuredNode_class : class :=
  StructuredNodeMeta_new "StructuredNode"
    [RelationshipInstaller_class; CypherMixin_class; Client_class; object_class]
    (list_to_map
       [("__doc__", AValue (PStr " Base class for nodes requiring formal declaration "));
        ("__metaclass__", AObject); ("get_property", AObject); ("category", AObject);
        ("__init__", AObject); ("__setattr__", AObject); ("properties", ADataDescriptor);
        ("_create", AObject); ("_update_index", AObject); ("save", AObject);
        ("delete", AObject)]).

Definition ReadOnlyNode_class : class :=
  StructuredNodeMeta_new "ReadOnlyNode" (mro StructuredNode_class)
    (list_to_map [("delete", AObject); ("update", AObject); ("save", AObject)]).

(** [StructuredNode.get_property(cls, name)].  The second test builds a
    [NoSuchProperty] but does not raise it, so whatever [getattr] found
    is returned. *)
Definition get_property (cls : class) (name : string) : outcome attr :=
  match getattr_class cls name with
  | None => Raise (NoSuchProperty None)
  | Some node_property =>
      let discarded :=
        if attr_truthy node_property && negb (is_Property node_property)
        then Some (NoSuchProperty (Some (name +:+ " is not a Property of " +:+ cls_name cls)))
        else None in
      Ok node_property
  end.

(** ** Instances *)

Record Instance := {
  __class__ : class;
  __dict__ : gmap string pyvalue
}.

Definition set_dict (f : gmap string pyvalue → gmap string pyvalue) (self : Instance) : Instance :=
  {| __class__ := __class__ self; __dict__ := f (__dict__ self) |}.

(** [super(StructuredNode, self).__setattr__(key, value)], that is
    [object.__setattr__]: a data descriptor of the class refuses the
    assignment, anything else lands in the instance [__dict__]. *)
Definition object_setattr (key : string) (value : pyvalue) : M Instance unit :=
  let! cls := gets __class__ in
  match getattr_class cls key with
  | Some ADataDescriptor => raise (AttributeError key)
  | _ => modify (set_dict <[key := value]>)
  end.

(** [prop.validate(value)] for a descriptor that has a [validate]. *)
Definition call_validate {S} (f : pyvalue → option error) (value : pyvalue) : M S unit :=
  match f value with
  | Some e => raise e
  | None => ret tt
  end.

(** [StructuredNode.__setattr__(self, key, value)] *)
Definition __setattr__ (key : string) (value : pyvalue) : M Instance unit :=
  if startswith_underscore key then object_setattr key value
  else
    let! cls := gets __class__ in
    match get_property cls key with
    | Raise (NoSuchProperty _) => object_setattr key value
    | Raise e => raise e
    | Ok prop =>
        do! match prop with
            | AProperty p =>          (* hasattr(prop, 'validate') and callable(...) *)
                match validate p with
                | Some f => call_validate f value
                | None => ret tt
                end
            | _ => ret tt
            end in
        object_setattr key value
    end.

(** Modelled from the spec: [RelationshipInstaller.__init__], from
    [neomodel/relationship.py], which is not part of [core.py].  The
    spec only says that structured nodes hold relationship-manager
    objects which [properties] must skip; the constructor is modelled as
    binding a manager under every relationship definition of the class. *)
Definition RelationshipInstaller_init : M Instance unit :=
  let! cls := gets __class__ in
  for_each (map_to_list (cls_dict cls))
    (λ '(key, value),
       match value with
       | ARelationship => modify (set_dict <[key := PRelationshipManager]>)
       | _ => ret tt
       end).

(** [StructuredNode.__init__(self, *args, **kwargs)] *)
Definition __init__ (kwargs : gmap string pyvalue) : M Instance unit :=
  do! for_each (map_to_list kwargs) (λ '(key, value), __setattr__ key value) in
  (* set missing props to none. *)
  let! cls := gets __class__ in
  do! for_each (map_to_list (cls_dict cls))
        (λ '(key, prop),
           if startswith_underscore key then ret tt
           else
             let! d := gets __dict__ in
             match prop with
             | AProperty p =>
                 if negb (bool_decide (key ∈ dom d)) then
                   if required p then raise (RequiredProperty key)
                   else object_setattr key PNone
                 else ret tt
             | _ => ret tt
             end) in
  do! __setattr__ "__node__" PNone in
  RelationshipInstaller_init.

(** Calling the class with keyword arguments [kwargs]. *)
Definition new (cls : class) (kwargs : gmap string pyvalue) : outcome Instance :=
  match __init__ kwargs {| __class__ := cls; __dict__ := ∅ |} with
  | (Ok _, self) => Ok self
  | (Raise e, _) => Raise e
  end.

(** ** [NodeIndexManager] *)

Record NodeIndexManager := {
  node_class : class;
  name : string
}.

(** The [_index] property: [self.client.get_or_create_index(neo4j.Node, self.name)] *)
Definition _index (self : NodeIndexManager) : M World string :=
  get_or_create_index (name self).

(** [dict(zip(results, props))]: later pairs win. *)
Definition dict_zip (results : list entity_id) (props : list (gmap string pyvalue))
    : gmap entity_id (gmap string pyvalue) :=
  foldl (λ m '(n, p), <[n := p]> m) ∅ (zip results props).

(** [NodeIndexManager.search(self, query=None, **kwargs)] *)
Definition search (self : NodeIndexManager) (query : option query)
    (kwargs : gmap string pyvalue) : M World (list Instance) :=
  do! for_each (map_to_list kwargs)
        (λ '(k, v),
           let! p := lift (get_property (node_class self) k) in
           if negb (attr_truthy p) then raise (NoSuchProperty (Some k))
           else match p with
                | AProperty p =>
                    if negb (is_indexed p) then raise (PropertyNotIndexed k)
                    else match validate p with
                         | Some f => call_validate f v
                         | None => raise (AttributeError "validate")
                         end
                | _ => raise (AttributeError "is_indexed")
                end) in
  let! query :=
    match query with
    | Some q => ret q
    | None =>       (* reduce(lambda x, y: x & y, [Q(k, v) ...]) *)
        match (λ '(k, v), Q k v) <$> map_to_list kwargs with
        | [] => raise (TypeError "reduce() of empty sequence with no initial value")
        | q :: r => ret (foldl QAnd q r)
        end
    end in
  let! idx := _index self in
  let! results := index_query idx query in
  let! props := get_properties results in
  for_collect (map_to_list (dict_zip results props))
    (λ '(node, properties),
       let! neonode := lift (new (node_class self) properties) in
       match __setattr__ "__node__" (PNode node) neonode with
       | (Ok _, neonode) => ret neonode
       | (Raise e, _) => raise e
       end).

(** [NodeIndexManager.get(self, query=None, **kwargs)] *)
Definition get (self : NodeIndexManager) (query : option query)
    (kwargs : gmap string pyvalue) : M World Instance :=
  let! nodes := search self query kwargs in
  match nodes with
  | [node] => ret node                                   (* len(nodes) == 1 *)
  | _ :: _ :: _ =>                                       (* len(nodes) > 1 *)
      raise (PyException "Multiple nodes returned from query, expected one")
  | [] =>                                                (* self.node_class.DoesNotExist(...) *)
      match getattr_class (node_class self) "DoesNotExist" with
      | Some (ADoesNotExist owner) =>
          raise (DoesNotExist owner "Can't find node in index matching query")
      | Some _ => raise (TypeError "exceptions must derive from BaseException")
      | None => raise (AttributeError "DoesNotExist")
      end
  end.

(** [cls.index._index]: the class attribute [index] and its index handle. *)
Definition class_index (cls : class) : M World string :=
  match lookup_mro (mro cls) "index" with
  | Some (owner, AIndexManager n) => _index {| node_class := owner; name := n |}
  | Some _ => raise (AttributeError "_index")
  | None => raise (AttributeError "index")
  end.

(** ** The category registry *)

(** [category_factory(instance_cls)] *)
Definition category_factory (instance_cls : class) : M World CategoryNode :=
  let name := cls_name instance_cls in
  let! attr := gets category_cache in
  do! match attr with                      (* if not hasattr(category_factory, 'cache') *)
      | None => modify (set_category_cache (Some ∅))
      | Some _ => ret tt
      end in
  let! cache := gets (λ w, default ∅ (category_cache w)) in
  do! (if negb (bool_decide (name ∈ dom cache)) then
         let! category_index := get_or_create_index "Category" in
         let! node := index_get_or_create category_index "category" (PStr name)
                        {["category" := PStr name]} in
         let! oid := gets next_oid in      (* category = CategoryNode(name) *)
         do! modify (set_next_oid S) in
         let category := {| cat_oid := oid; cat_name := name; cat_node := node;
                            cat_instance := upper name |} in
         modify (λ w, set_category_cache
                        (Some (<[name := category]> (default ∅ (category_cache w)))) w)
       else ret tt) in
  let! cache := gets (λ w, default ∅ (category_cache w)) in
  match cache !! name with
  | Some category => ret category
  | None => raise (KeyError name)
  end.

(** ** The record lifecycle

    The methods below run on [self] and on the world.  They are the
    definitions of [StructuredNode] itself: record types declare data,
    and the read-only flavour refuses [save] and [delete] before any of
    this code is reached. *)

Definition on_world {A} (m : M World A) : M (Instance * World) A :=
  λ '(self, w), let '(r, w') := m w in (r, (self, w')).

Definition on_self {A} (m : M Instance A) : M (Instance * World) A :=
  λ '(self, w), let '(r, self') := m self in (r, (self', w)).

(** Reading [self.__node__]. *)
Definition get_node : M (Instance * World) pyvalue :=
  let! self := gets fst in
  match __dict__ self !! "__node__" with
  | Some v => ret v
  | None => raise (AttributeError "__node__")
  end.

(** The [properties] property of [StructuredNode]. *)
Definition properties (self : Instance) : gmap string pyvalue :=
  foldl (λ props '(key, value),
           if negb (startswith_underscore key)
              && negb (bool_decide (value = PMethod))
              && negb (bool_decide (value = PRelationshipManager))
              && bool_decide (value ≠ PNone)
           then <[key := value]> props
           else props)
        ∅ (map_to_list (__dict__ self)).

(** [StructuredNode.delete(self)] *)
Definition delete : M (Instance * World) bool :=
  let! node := get_node in
  if truthy node then
    match node with
    | PNode n =>
        let! to_delete := on_world (get_relationships n) in
        let to_delete := (to_delete ++ [ENode n])%list in
        do! on_world (client_delete to_delete) in
        do! on_self (__setattr__ "__node__" PNone) in
        ret true
    | _ => raise (AttributeError "get_relationships")
    end
  else raise (PyException "Node has not been saved so cannot be deleted").

(** py2neo's [WriteBatch] methods: they run on the client and only
    append an entry to the batch.  [add_indexed_node_or_fail] needs a
    server with index uniqueness modes. *)
Definition batch_node (node : pyvalue) : M (Instance * World) entity_id :=
  match node with
  | PNode n => ret n
  | _ => raise (AttributeError "_id")
  end.

Definition batch_add_indexed_node_or_fail (batch : list batch_op) (idx key : string)
    (value node : pyvalue) : M (Instance * World) (list batch_op) :=
  let! supported := gets (λ '(_, w), supports_index_uniqueness_modes w) in
  if supported then
    let! n := batch_node node in
    ret (batch ++ [add_indexed_node_or_fail idx key value n])%list
  else raise NotImplementedError.

Definition batch_get_or_add_indexed_node (batch : list batch_op) (idx key : string)
    (value node : pyvalue) : M (Instance * World) (list batch_op) :=
  let! n := batch_node node in
  ret (batch ++ [get_or_add_indexed_node idx key value n])%list.

Definition batch_add_indexed_node (batch : list batch_op) (idx key : string)
    (value node : pyvalue) : M (Instance * World) (list batch_op) :=
  let! n := batch_node node in
  ret (batch ++ [add_indexed_node idx key value n])%list.

(** The body of the inner loop of [_update_index]: what one supplied
    property adds to the batch of class [cls]. *)
Definition index_item (cls : class) (batch : list batch_op) (key : string) (value : pyvalue)
    : M (Instance * World) (list batch_op) :=
  if bool_decide (key ∈ dom (cls_dict cls)) then
    let! node_property := lift (get_property cls key) in
    match node_property with
    | AProperty p =>
        if unique_index p then
          try_except
            (let! idx := on_world (class_index cls) in
             let! node := get_node in
             batch_add_indexed_node_or_fail batch idx key value node)
            (λ e, match e with
                  | NotImplementedError =>
                      let! idx := on_world (class_index cls) in
                      let! node := get_node in
                      batch_get_or_add_indexed_node batch idx key value node
                  | _ => raise e
                  end)
        else if index p then
          let! idx := on_world (class_index cls) in
          let! node := get_node in
          batch_add_indexed_node batch idx key value node
        else ret batch
    | _ => raise (AttributeError "unique_index")
    end
  else ret batch.

(** The inner loop of [_update_index]: the batch entries of one class. *)
Fixpoint fill_batch (cls : class) (items : list (string * pyvalue)) (batch : list batch_op)
    : M (Instance * World) (list batch_op) :=
  match items with
  | [] => ret batch
  | (key, value) :: rest =>
      let! batch := index_item cls batch key value in
      fill_batch cls rest batch
  end.

(** [for r in batch._submit(): ...] with its [except rest.ResourceConflict]. *)
Definition submit_checked (batch : list batch_op) : M (Instance * World) unit :=
  try_except
    (let! rs := on_world (batch_submit batch) in
     for_each rs (λ r, if (status r =? 200)%Z
                       then raise (NotUnique ("A supplied value is not unique" +:+ uri r))
                       else ret tt))
    (λ e, match e with
          | ResourceConflict u => raise (NotUnique ("A supplied value is not unique" +:+ u))
          | _ => raise e
          end).

(** The outer loop of [_update_index] over [self.__class__.mro()]. *)
Fixpoint update_classes (classes : list class) (props : gmap string pyvalue)
    : M (Instance * World) unit :=
  match classes with
  | [] => ret tt
  | cls :: rest =>
      if bool_decide (cls_name cls = "StructuredNode") || bool_decide (cls_name cls = "ReadOnlyNode")
      then ret tt                                        (* break *)
      else
        let! batch := fill_batch cls (map_to_list props) [] in
        do! submit_checked batch in
        update_classes rest props
  end.

(** [StructuredNode._update_index(self, props)] *)
Definition _update_index (props : gmap string pyvalue) : M (Instance * World) unit :=
  let! self := gets fst in
  update_classes (mro (__class__ self)) props.

(** [StructuredNode._create(self, props)].  The test on a false
    [self.__node__] builds an [Exception] but does not raise it. *)
Definition _create (props : gmap string pyvalue) : M (Instance * World) unit :=
  let! self := gets fst in
  let relation_name := upper (cls_name (__class__ self)) in
  let! category := on_world (category_factory (__class__ self)) in
  let! '(node, rel) := on_world (client_create props (cat_node category) relation_name) in
  do! on_self (__setattr__ "__node__" node) in
  (* Update indexes *)
  try_except (_update_index props)
    (λ exc, do! delete in raise exc).

(** [StructuredNode.save(self)] *)
Definition save : M (Instance * World) Instance :=
  let! node := get_node in
  do! (if truthy node then
         match node with
         | PNode n =>
             let! self := gets fst in
             do! on_world (set_properties n (properties self)) in
             let! idx := on_world (class_index (__class__ self)) in
             do! on_world (index_remove idx n) in
             let! self := gets fst in
             _update_index (properties self)
         | _ => raise (AttributeError "set_properties")
         end
       else
         let! self := gets fst in
         _create (properties self)) in
  gets fst.

(** ** A sample schema

    The record type of the running example:
    [class Person(StructuredNode)] with [name], a required unique-indexed
    string, and [age], an indexed integer. *)

Definition validate_str (v : pyvalue) : option error :=
  match v with
  | PStr _ => None
  | _ => Some (ValueError "str expected")
  end.

Definition validate_int (v : pyvalue) : option error :=
  match v with
  | PInt _ => None
  | _ => Some (ValueError "int expected")
  end.

Definition Person_name : Property :=
  {| required := true; index := false; unique_index := true; is_indexed := true;
     validate := Some validate_str |}.

Definition Person_age : Property :=
  {| required := false; index := true; unique_index := false; is_indexed := true;
     validate := Some validate_int |}.

Definition Person : class :=
  StructuredNodeMeta_new "Person" (mro StructuredNode_class)
    (list_to_map [("name", AProperty Person_name); ("age", AProperty Person_age)]).

(** [Person.index] *)
Definition Person_index : NodeIndexManager :=
  {| node_class := Person; name := "Person" |}.

(** A process that has not touched the store yet, and an empty store. *)
Definition fresh_world (uniqueness_modes : bool) : World :=
  {| nodes := ∅; rels := []; indexes := ∅; next_id := 0;
     supports_index_uniqueness_modes := uniqueness_modes;
     journal := []; category_cache := None; next_oid := 0 |}.


(** [class Account(StructuredNode)] with [owner = Property(required=True)],
    a descriptor of the base [Property] class, which has no [validate]. *)
Definition Account_owner : Property :=
  {| required := true; index := false; unique_index := false; is_indexed := false;
     validate := None |}.

Definition Account : class :=
  StructuredNodeMeta_new "Account" (mro StructuredNode_class)
    (list_to_map [("owner", AProperty Account_owner)]).

(** ** The contracts as the specification words them

    These predicates state what the specification promises, so that the
    code can be compared with it. *)

(** Construction: every required property the class declares is present
    and non-null in the new instance, or construction fails with
    [RequiredProperty]. *)
Definition required_present_and_non_null (cls : class) (kwargs : gmap string pyvalue) : Prop :=
  ∀ k p, cls_dict cls !! k = Some (AProperty p) → required p = true →
    match new cls kwargs with
    | Ok inst => ∃ v, __dict__ inst !! k = Some v ∧ v ≠ PNone
    | Raise e => ∃ k', e = RequiredProperty k'
    end.

(** Snapshot: [properties] holds declared properties only. *)
Definition snapshot_only_declared (inst : Instance) : Prop :=
  ∀ k v, properties inst !! k = Some v →
         ∃ p, getattr_class (__class__ inst) k = Some (AProperty p).


(** ** Relating two states of the world *)

(** Everything but the indexes and the journal is unchanged. *)
Definition same_graph (w w' : World) : Prop :=
  nodes w' = nodes w ∧ rels w' = rels w ∧ next_id w' = next_id w ∧
  supports_index_uniqueness_modes w' = supports_index_uniqueness_modes w ∧
  category_cache w' = category_cache w ∧ next_oid w' = next_oid w.

(** From [w] to [w'] the graph is unchanged, the journal was extended,
    no index entry was lost and every new entry satisfies [P]. *)
Definition indexes_grow (P : index_entry → Prop) (w w' : World) : Prop :=
  same_graph w w' ∧
  (∃ j, journal w' = (journal w ++ j)%list) ∧
  (∀ idx e, e ∈ entries_of idx w → e ∈ entries_of idx w') ∧
  (∀ idx e, e ∈ entries_of idx w' → e ∈ entries_of idx w ∨ P e).

(** The index entry a batch entry writes. *)
Definition op_entry (op : batch_op) : index_entry :=
  match op with
  | add_indexed_node_or_fail _ k v n
  | get_or_add_indexed_node _ k v n
  | add_indexed_node _ k v n => {| ie_key := k; ie_value := v; ie_node := n |}
  end.


(** An index entry written for the node of [self] from the mapping
    [items]. *)
Definition entry_from (self : Instance) (items : list (string * pyvalue))
    (e : index_entry) : Prop :=
  __dict__ self !! "__node__" = Some (PNode (ie_node e)) ∧ (ie_key e, ie_value e) ∈ items.


(** The instance a successful call of the class returns. *)
Definition instance_of (cls : class) (o : outcome Instance) : Instance :=
  match o with
  | Ok inst => inst
  | Raise _ => {| __class__ := cls; __dict__ := ∅ |}
  end.

(** [Person(name='alice', age=30)], the store after saving it, and a
    second [Person(name='alice', age=40)]. *)
Definition alice : Instance :=
  instance_of Person (new Person (<["name" := PStr "alice"]> {["age" := PInt 30]})).

Definition store_with_alice : World := (save (alice, fresh_world true)).2.2.

Definition alice_again : Instance :=
  instance_of Person (new Person (<["name" := PStr "alice"]> {["age" := PInt 40]})).


(** Alice once she is saved. *)
Definition alice_saved : Instance := (save (alice, fresh_world true)).2.1.


(** [Person(name='bob', nickname='bobby')]: [nickname] is not declared
    by [Person]. *)
Definition bob : Instance :=
  instance_of Person (new Person (<["name" := PStr "bob"]> {["nickname" := PStr "bobby"]})).


(** ** Counting category creations *)

(** Is [c] the remote get-or-create of the category node of [name]? *)
Definition is_category_get_or_create (name : string) (c : call) : bool :=
  match c with
  | CIndexGetOrCreate idx key value =>
      bool_decide (idx = "Category" ∧ key = "category" ∧ value = PStr name)
  | _ => false
  end.

(** How many of them the journal holds. *)
Definition category_creations (name : string) (w : World) : nat :=
  List.length (List.filter (is_category_get_or_create name) (journal w)).

(** [name] is cached as the object [c]. *)
Definition cached (w : World) (name : string) (c : CategoryNode) : Prop :=
  ∃ m, category_cache w = Some m ∧ m !! name = Some c.


(** 1 when [name] has an entry in the cache, else 0. *)
Definition known (w : World) (name : string) : nat :=
  match default ∅ (category_cache w) !! name with
  | Some _ => 1
  | None => 0
  end.

(** A process calling [category_factory] for each class of a list. *)
Definition categories_for (l : list class) : M World (list CategoryNode) :=
  for_collect l category_factory.


(** A store holding a node written before [name] became a required
    property of [Person]: node 7 has an [age] only, and is indexed by
    it. *)
Definition store_with_legacy_node : World :=
  {| nodes := {[ 7 := {["age" := PInt 30]} ]};
     rels := [];
     indexes := {[ "Person" := [{| ie_key := "age"; ie_value := PInt 30; ie_node := 7 |}] ]};
     next_id := 8;
     supports_index_uniqueness_modes := true;
     journal := []; category_cache := None; next_oid := 0 |}.

(** The query [search] sends: the one it was given, or the conjunction
    of the keyword criteria. *)
Definition effective_query (q : option query) (kwargs : gmap string pyvalue) : option query :=
  match q with
  | Some q => Some q
  | None =>
      match (λ '(k, v), Q k v) <$> map_to_list kwargs with
      | [] => None
      | q :: r => Some (foldl QAnd q r)
      end
  end.

(** Reconstruction as the specification words it: the stored data is
    taken as known-good, so every node the query matches comes back as
    an instance bound to it. *)
Definition every_match_reconstructed (self : NodeIndexManager) (q : query) (w : World) : Prop :=
  ∀ n, n ∈ index_hits (name self) q w →
       ∃ insts w', search self (Some q) ∅ w = (Ok insts, w') ∧
                   ∃ inst, inst ∈ insts ∧ __dict__ inst !! "__node__" = Some (PNode n).


(** ** The batch of one class, as the specification words it

    For a supplied property that the class declares: the atomic
    add-or-fail entry if it is unique-indexed and the store supports
    it, the get-or-add entry if it is unique-indexed and the store does
    not, a plain add if it is only indexed, nothing otherwise. *)
Definition expected_entry (cls : class) (supported : bool) (idx : string) (n : entity_id)
    (item : string * pyvalue) : option batch_op :=
  let '(key, value) := item in
  match cls_dict cls !! key with
  | Some (AProperty p) =>
      if unique_index p then
        Some (if supported then add_indexed_node_or_fail idx key value n
              else get_or_add_indexed_node idx key value n)
      else if index p then Some (add_indexed_node idx key value n)
      else None
  | _ => None
  end.

(** [Person] on a store without index uniqueness modes. *)
Definition legacy_store_with_alice : World := (save (alice, fresh_world false)).2.2.

(** * Properties *)

(** ** Stepping through monadic code *)

Lemma bind_ok {S A B} (m : M S A) (k : A → M S B) s a s' :
  m s = (Ok a, s') → bind m k s = k a s'.
Proof. unfold bind. by intros ->. Qed.

Lemma bind_raise {S A B} (m : M S A) (k : A → M S B) s e s' :
  m s = (Raise e, s') → bind m k s = (Raise e, s').
Proof. unfold bind. by intros ->. Qed.

Lemma bind_inv_ok {S A B} (m : M S A) (k : A → M S B) s b s2 :
  bind m k s = (Ok b, s2) → ∃ a s1, m s = (Ok a, s1) ∧ k a s1 = (Ok b, s2).
Proof.
  unfold bind. destruct (m s) as [[a|e] s1]; [eauto | discriminate].
Qed.

Ltac step :=
  unfold bind, ret, raise, gets, modify, lift, try_except, on_world, on_self in *;
  simpl in *.

(** ** Point lookup *)

Lemma getattr_meta_DoesNotExist name0 bases dct :
  getattr_class (StructuredNodeMeta_new name0 bases dct) "DoesNotExist"
  = Some (ADoesNotExist name0).
Proof.
  unfold getattr_class, StructuredNodeMeta_new, mro.
  assert (Hd : ∀ d : gmap string attr,
             match <["DoesNotExist" := ADoesNotExist name0]> d !! "__doc__" with
             | Some _ => <["DoesNotExist" := ADoesNotExist name0]> d
             | None => <["__doc__" := AValue PNone]> (<["DoesNotExist" := ADoesNotExist name0]> d)
             end !! "DoesNotExist" = Some (ADoesNotExist name0)).
  { intros d. destruct (_ !! "__doc__").
    - apply lookup_insert_eq.
    - rewrite lookup_insert_ne by done. apply lookup_insert_eq. }
  case_bool_decide; simpl.
  - rewrite lookup_insert_ne by done. by rewrite Hd.
  - by rewrite Hd.
Qed.


(** ** Criteria checks of [search] *)

(** C4: a criterion naming a class attribute that is not a property
    descriptor.  [Person.index.search(save='x')]: [get_property] finds
    the method [save], builds its [NoSuchProperty] without raising it
    and returns the method; [search] then reads [is_indexed] on it and
    fails with [AttributeError], not with [NoSuchProperty].  No remote
    call has been made. *)
Theorem search_non_property_criterion :
  get_property Person "save" = Ok AObject ∧
  search Person_index None {["save" := PStr "x"]} (fresh_world true)
  = (Raise (AttributeError "is_indexed"), fresh_world true).
Proof. split; vm_compute; reflexivity. Qed.

(** ** Attribute assignment and construction *)

Lemma object_setattr_inv k v self r self' :
  object_setattr k v self = (r, self') →
  (r = Ok tt ∧ self' = set_dict <[k := v]> self) ∨
  (r = Raise (AttributeError k) ∧ self' = self
   ∧ getattr_class (__class__ self) k = Some ADataDescriptor).
Proof.
  unfold object_setattr. step.
  destruct (getattr_class (__class__ self) k) as [[]|] eqn:E; simpl;
    intros [= <- <-]; auto.
Qed.

Lemma setattr_inv k v self r self' :
  __setattr__ k v self = (r, self') →
  (r = Ok tt ∧ self' = set_dict <[k := v]> self) ∨ (∃ e, r = Raise e ∧ self' = self).
Proof.
  assert (Hobj : ∀ r self', object_setattr k v self = (r, self') →
            (r = Ok tt ∧ self' = set_dict <[k := v]> self) ∨ (∃ e, r = Raise e ∧ self' = self)).
  { intros r0 s0 H. apply object_setattr_inv in H as [?|(-> & -> & _)]; eauto. }
  unfold __setattr__. destruct (startswith_underscore k); [apply Hobj|].
  step. destruct (get_property (__class__ self) k) as [a|e].
  - destruct a as [p| | | | | |]; simpl; try apply Hobj.
    destruct (validate p) as [f|]; simpl; [|apply Hobj].
    unfold call_validate. destruct (f v); simpl; [|apply Hobj].
    intros [= <- <-]. eauto.
  - destruct e; simpl; try (intros [= <- <-]; eauto). apply Hobj.
Qed.

(** Whether an assignment is accepted depends on the class, the name
    and the value, not on what the instance already holds. *)
Lemma setattr_outcome_class k v cls d d' :
  (__setattr__ k v {| __class__ := cls; __dict__ := d |}).1
  = (__setattr__ k v {| __class__ := cls; __dict__ := d' |}).1.
Proof.
  assert (Hobj : (object_setattr k v {| __class__ := cls; __dict__ := d |}).1
                 = (object_setattr k v {| __class__ := cls; __dict__ := d' |}).1).
  { unfold object_setattr. step. by destruct (getattr_class cls k) as [[]|]. }
  unfold __setattr__. destruct (startswith_underscore k); [done|].
  step. destruct (get_property cls k) as [a|e].
  - destruct a as [p| | | | | |]; simpl; try apply Hobj.
    destruct (validate p) as [f|]; simpl; [|apply Hobj].
    unfold call_validate. destruct (f v); simpl; [done|apply Hobj].
  - destruct e; simpl; try done.
Qed.

(** The first loop of [__init__]: the supplied values, in order. *)
Lemma assign_all_inv (l : list (string * pyvalue)) self r self' :
  for_each l (λ '(key, value), __setattr__ key value) self = (r, self') →
  __class__ self' = __class__ self ∧
  match r with
  | Ok _ => __dict__ self' = foldl (λ d '(k, v), <[k := v]> d) (__dict__ self) l
  | Raise _ => True
  end.
Proof.
  revert self. induction l as [|[k v] l IH]; intros self; simpl.
  - step. by intros [= <- <-].
  - unfold bind. destruct (__setattr__ k v self) as [[[]|e] self1] eqn:E.
    + apply setattr_inv in E as [[_ ->]|(? & [=] & _)].
      intros H. apply IH in H as [Hc Hd]. split; [done|].
      destruct r; [|done]. by rewrite Hd.
    + apply setattr_inv in E as [[[=] _]|(? & _ & ->)]. by intros [= <- <-].
Qed.

Lemma foldl_insert_lookup (l : list (string * pyvalue)) (d : gmap string pyvalue) k :
  NoDup l.*1 →
  foldl (λ d '(k, v), <[k := v]> d) d l !! k
  = match list_to_map (M := gmap string pyvalue) l !! k with
    | Some v => Some v
    | None => d !! k
    end.
Proof.
  revert d. induction l as [|[k0 v0] l IH]; intros d Hnd; simpl.
  - by rewrite lookup_empty.
  - inversion Hnd as [|?? Hnotin Hnd']; subst.
    rewrite IH by done.
    destruct (decide (k = k0)) as [->|Hne].
    + rewrite lookup_insert_eq.
      rewrite (not_elem_of_list_to_map_1 (M := gmap string) l k0 Hnotin).
      by rewrite lookup_insert_eq.
    + rewrite !lookup_insert_ne by done. done.
Qed.

Lemma assign_all_from_empty kwargs cls r self' :
  for_each (map_to_list kwargs) (λ '(key, value), __setattr__ key value)
    {| __class__ := cls; __dict__ := ∅ |} = (Ok r, self') →
  self' = {| __class__ := cls; __dict__ := kwargs |}.
Proof.
  intros H. apply assign_all_inv in H as [Hc Hd]. simpl in *.
  destruct self' as [c d]; simpl in *. subst c. f_equal.
  rewrite Hd. apply map_eq. intros k.
  rewrite foldl_insert_lookup by apply NoDup_fst_map_to_list.
  rewrite list_to_map_to_list, lookup_empty. by destruct (kwargs !! k).
Qed.

Lemma getattr_class_own cls k a :
  cls_dict cls !! k = Some a → getattr_class cls k = Some a.
Proof. unfold getattr_class, mro. simpl. by intros ->. Qed.

(** The second loop of [__init__]: a default for every missing property
    of the class body, or [RequiredProperty]. *)
Lemma defaults_inv cls (l : list (string * attr)) self r self' :
  __class__ self = cls →
  NoDup l.*1 →
  (∀ k a, (k, a) ∈ l → cls_dict cls !! k = Some a) →
  for_each l
    (λ '(key, prop),
       if startswith_underscore key then ret tt
       else
         let! d := gets __dict__ in
         match prop with
         | AProperty p =>
             if negb (bool_decide (key ∈ dom d)) then
               if required p then raise (RequiredProperty key)
               else object_setattr key PNone
             else ret tt
         | _ => ret tt
         end) self = (r, self') →
  __class__ self' = cls ∧
  match r with
  | Ok _ =>
      (∀ k v, __dict__ self !! k = Some v → __dict__ self' !! k = Some v) ∧
      (∀ k p, (k, AProperty p) ∈ l → startswith_underscore k = false →
              __dict__ self !! k = None →
              required p = false ∧ __dict__ self' !! k = Some PNone) ∧
      (∀ k, __dict__ self !! k = None →
            (∀ p, (k, AProperty p) ∈ l → startswith_underscore k = true) →
            __dict__ self' !! k = None)
  | Raise e =>
      ∃ k p, e = RequiredProperty k ∧ (k, AProperty p) ∈ l ∧
             startswith_underscore k = false ∧ required p = true ∧
             __dict__ self !! k = None
  end.
Proof.
  revert self. induction l as [|[k0 a0] l IH]; intros self Hcls Hnd Hin; simpl.
  - step. intros [= <- <-]. split; [done|]. split_and!; [done| |done].
    intros k p H. by apply elem_of_nil in H.
  - inversion Hnd as [|?? Hnotin Hnd']; subst.
    assert (Hin' : ∀ k a, (k, a) ∈ l → cls_dict (__class__ self) !! k = Some a).
    { intros k a H. apply Hin. by right. }
    assert (Hk0 : ∀ a, (k0, a) ∈ l → False).
    { intros a H. apply Hnotin. apply list_elem_of_fmap. by exists (k0, a). }
    (* the iteration that leaves the instance alone *)
    assert (Hskip : (startswith_underscore k0 = true ∨ is_Some (__dict__ self !! k0)
                     ∨ (∀ p, a0 ≠ AProperty p)) →
      for_each l
        (λ '(key, prop),
           if startswith_underscore key then ret tt
           else
             let! d := gets __dict__ in
             match prop with
             | AProperty p =>
                 if negb (bool_decide (key ∈ dom d)) then
                   if required p then raise (RequiredProperty key)
                   else object_setattr key PNone
                 else ret tt
             | _ => ret tt
             end) self = (r, self') →
      __class__ self' = __class__ self ∧
      match r with
      | Ok _ =>
          (∀ k v, __dict__ self !! k = Some v → __dict__ self' !! k = Some v) ∧
          (∀ k p, (k, AProperty p) ∈ (k0, a0) :: l → startswith_underscore k = false →
                  __dict__ self !! k = None →
                  required p = false ∧ __dict__ self' !! k = Some PNone) ∧
          (∀ k, __dict__ self !! k = None →
                (∀ p, (k, AProperty p) ∈ (k0, a0) :: l → startswith_underscore k = true) →
                __dict__ self' !! k = None)
      | Raise e =>
          ∃ k p, e = RequiredProperty k ∧ (k, AProperty p) ∈ (k0, a0) :: l ∧
                 startswith_underscore k = false ∧ required p = true ∧
                 __dict__ self !! k = None
      end).
    { intros Hwhy H. apply IH in H as [Hc H]; [|done..]. split; [done|].
      destruct r as [[]|e].
      - destruct H as (H1 & H2 & H3). split_and!; [done| |].
        + intros k p Hel Hpub Hnone. apply elem_of_cons in Hel as [[= -> <-]|Hel].
          * destruct Hwhy as [Hu|[[v Hv]|Hnp]]; [congruence|congruence|by destruct (Hnp p)].
          * by apply H2.
        + intros k Hnone Hall. apply H3; [done|]. intros p Hel. apply (Hall p). by right.
      - destruct H as (k & p & -> & Hel & Hpub & Hr & Hnone).
        exists k, p. split_and!; try done. by right. }
    destruct (startswith_underscore k0) eqn:Hu.
    { unfold bind at 1. simpl. unfold ret at 1. apply Hskip. by left. }
    unfold bind at 1. unfold bind at 1. unfold gets at 1.
    destruct a0 as [p| | | | | |];
      try (simpl; unfold ret at 1; apply Hskip; right; right; by intros p).
    case_bool_decide as Hdom; simpl.
    { unfold ret at 1. apply Hskip. right; left. by apply elem_of_dom. }
    apply not_elem_of_dom in Hdom.
    destruct (required p) eqn:Hreq.
    { unfold raise. intros [= <- <-]. split; [done|].
      exists k0, p. split_and!; try done. by left. }
    destruct (object_setattr k0 PNone self) as [r1 self1] eqn:E.
    apply object_setattr_inv in E as [[-> ->]|(_ & _ & Hdd)].
    2:{ rewrite (getattr_class_own _ _ (AProperty p)) in Hdd; [done|]. apply Hin. by left. }
    intros H. apply IH in H as [Hc H]; [|done..]. split; [done|].
    destruct r as [[]|e]; simpl in *.
    + destruct H as (H1 & H2 & H3). split_and!.
      * intros k v Hv. apply H1. rewrite lookup_insert_ne; [done|]. congruence.
      * intros k p' Hel Hpub Hnone. apply elem_of_cons in Hel as [[= -> ->]|Hel].
        -- split; [done|]. apply H1. apply lookup_insert_eq.
        -- apply H2; [done..|]. rewrite lookup_insert_ne; [done|].
           intros ->. by apply (Hk0 (AProperty p')).
      * intros k Hnone Hall. apply H3.
        -- rewrite lookup_insert_ne; [done|]. intros ->.
           specialize (Hall p (list_elem_of_here _ _)). congruence.
        -- intros p' Hel. apply (Hall p'). by right.
    + destruct H as (k & p' & -> & Hel & Hpub & Hr & Hnone).
      exists k, p'. split_and!; try done; [by right|].
      rewrite lookup_insert_ne in Hnone; [done|]. intros ->. by apply (Hk0 (AProperty p')).
Qed.

Lemma installer_inv (l : list (string * attr)) self r self' :
  NoDup l.*1 →
  for_each l
    (λ '(key, value),
       match value with
       | ARelationship => modify (set_dict <[key := PRelationshipManager]>)
       | _ => ret tt
       end) self = (r, self') →
  r = Ok tt ∧ __class__ self' = __class__ self ∧
  (∀ k, (k, ARelationship) ∈ l → __dict__ self' !! k = Some PRelationshipManager) ∧
  (∀ k, (k, ARelationship) ∉ l → __dict__ self' !! k = __dict__ self !! k).
Proof.
  revert self. induction l as [|[k0 a0] l IH]; intros self Hnd; simpl.
  - step. intros [= <- <-]. split_and!; try done. intros k H. by apply elem_of_nil in H.
  - inversion Hnd as [|?? Hnotin Hnd']; subst.
    assert (Hk0 : ∀ a, (k0, a) ∈ l → False).
    { intros a H. apply Hnotin. apply list_elem_of_fmap. by exists (k0, a). }
    unfold bind at 1.
    destruct a0; simpl; unfold ret at 1; simpl; intros H;
      apply IH in H as (-> & Hc & H1 & H2); try done; (split_and!; [done|done| |]).
    all: try (intros k Hel; apply elem_of_cons in Hel as [[=]|Hel]; by apply H1).
    all: try (intros k Hel; apply H2; intros Hel'; apply Hel; by right).
    + intros k Hel. apply elem_of_cons in Hel as [[= ->]|Hel]; [|by apply H1].
      rewrite H2; [apply lookup_insert_eq|]. intros Hel. by apply (Hk0 ARelationship).
    + intros k Hel. rewrite H2.
      * simpl. rewrite lookup_insert_ne; [done|]. intros ->. apply Hel. by left.
      * intros Hel'. apply Hel. by right.
Qed.

(** What a call of the class produces: the error of the first refused
    assignment; else [RequiredProperty] for a missing required property
    of the class body; else an instance holding the supplied values, a
    null default for every other public property of the class body, a
    null [__node__] and the relationship managers. *)
Lemma init_inv cls kwargs r self' :
  __init__ kwargs {| __class__ := cls; __dict__ := ∅ |} = (r, self') →
  match for_each (map_to_list kwargs) (λ '(key, value), __setattr__ key value)
          {| __class__ := cls; __dict__ := ∅ |} with
  | (Raise e, _) => r = Raise e
  | (Ok _, _) =>
      (∃ k p, r = Raise (RequiredProperty k) ∧ cls_dict cls !! k = Some (AProperty p) ∧
              startswith_underscore k = false ∧ required p = true ∧ kwargs !! k = None)
      ∨ ((∀ k p, cls_dict cls !! k = Some (AProperty p) → startswith_underscore k = false →
                 kwargs !! k = None → required p = false) ∧
         ((r = Raise (AttributeError "__node__") ∧
           getattr_class cls "__node__" = Some ADataDescriptor)
          ∨ (r = Ok tt ∧ __class__ self' = cls ∧
             (∀ k, cls_dict cls !! k = Some ARelationship →
                   __dict__ self' !! k = Some PRelationshipManager) ∧
             (cls_dict cls !! "__node__" ≠ Some ARelationship →
                   __dict__ self' !! "__node__" = Some PNone) ∧
             (∀ k v, k ≠ "__node__" → cls_dict cls !! k ≠ Some ARelationship →
                     kwargs !! k = Some v → __dict__ self' !! k = Some v) ∧
             (∀ k p, cls_dict cls !! k = Some (AProperty p) →
                     startswith_underscore k = false → kwargs !! k = None →
                     __dict__ self' !! k = Some PNone) ∧
             (∀ k, k ≠ "__node__" → cls_dict cls !! k ≠ Some ARelationship →
                   kwargs !! k = None →
                   (∀ p, cls_dict cls !! k = Some (AProperty p) →
                         startswith_underscore k = true) →
                   __dict__ self' !! k = None))))
  end.
Proof.
  unfold __init__. unfold bind at 1.
  destruct (for_each (map_to_list kwargs) _ _) as [[[]|e] self1] eqn:E1;
    [|by intros [= <- <-]].
  apply assign_all_from_empty in E1 as ->.
  unfold bind at 1. unfold gets at 1. simpl.
  unfold bind at 1.
  destruct (for_each (map_to_list (cls_dict cls)) _ _) as [r2 self2] eqn:E2.
  apply (defaults_inv cls) in E2 as [Hc2 H2]; [|done|apply NoDup_fst_map_to_list|].
  2:{ intros k a. apply elem_of_map_to_list. }
  simpl in H2. destruct r2 as [[]|e].
  2:{ intros [= <- <-]. left. destruct H2 as (k & p & -> & Hel & Hpub & Hr & Hn).
      exists k, p. split_and!; try done. by apply elem_of_map_to_list. }
  destruct H2 as (H21 & H22 & H23). right. split.
  { intros k p Hk Hpub Hn. apply elem_of_map_to_list in Hk.
    by destruct (H22 k p Hk Hpub Hn). }
  revert H. unfold bind at 1.
  destruct (__setattr__ "__node__" PNone self2) as [r3 self3] eqn:E3.
  assert (E3' := E3). unfold __setattr__ in E3'. simpl in E3'.
  apply object_setattr_inv in E3' as [[-> ->]|(-> & -> & Hdd)].
  2:{ intros [= <- <-]. left. by rewrite Hc2 in Hdd. }
  intros H. apply installer_inv in H as (-> & Hc & H41 & H42);
    [|apply NoDup_fst_map_to_list].
  simpl in *. rewrite Hc2 in *. right. split_and!; try done.
  - intros k Hk. apply H41. by apply elem_of_map_to_list.
  - intros Hk. rewrite H42; [apply lookup_insert_eq|]. by rewrite elem_of_map_to_list.
  - intros k v Hne Hk Hv. rewrite H42 by (by rewrite elem_of_map_to_list).
    rewrite lookup_insert_ne by done. by apply H21.
  - intros k p Hk Hpub Hn.
    rewrite H42 by (rewrite elem_of_map_to_list; congruence).
    rewrite lookup_insert_ne by (intros <-; done).
    apply elem_of_map_to_list in Hk. by destruct (H22 k p Hk Hpub Hn).
  - intros k Hne Hk Hn Hp. rewrite H42 by (by rewrite elem_of_map_to_list).
    rewrite lookup_insert_ne by done. apply H23; [done|].
    intros p Hel. apply (Hp p). by apply elem_of_map_to_list.
Qed.

Lemma new_Ok_init cls kwargs inst :
  new cls kwargs = Ok inst →
  __init__ kwargs {| __class__ := cls; __dict__ := ∅ |} = (Ok tt, inst).
Proof.
  unfold new. destruct (__init__ _ _) as [[[]|e] self]; [|done]. by intros [= ->].
Qed.

Lemma public_not_node k : startswith_underscore k = false → k ≠ "__node__".
Proof. by intros H ->. Qed.

(** C5, as the specification words it, fails: [Account(owner=None)]
    supplies the required property with a null value.  The constructor
    only tests that the name is present in the instance, so the instance
    is built and its required property is null. *)
Lemma required_property_may_be_null :
  ¬ required_present_and_non_null Account {["owner" := PNone]}.
Proof.
  intros H. specialize (H "owner" Account_owner eq_refl eq_refl).
  vm_compute in H. destruct H as (v & [= <-] & Hv). by apply Hv.
Qed.

(** C5, amended: construction checks the properties declared in the
    body of the instance's own class under a public name.  When it
    succeeds, each of them holds the supplied value if one was supplied
    (null included) and is otherwise not required and set to null.  When
    every supplied value is accepted by attribute assignment and such a
    required property was not supplied, construction fails with
    [RequiredProperty] naming a required property that was not supplied. *)
Theorem construction_checks_required (cls : class) (kwargs : gmap string pyvalue) :
  (∀ inst, new cls kwargs = Ok inst →
     ∀ k p, cls_dict cls !! k = Some (AProperty p) → startswith_underscore k = false →
       match kwargs !! k with
       | Some v => __dict__ inst !! k = Some v
       | None => required p = false ∧ __dict__ inst !! k = Some PNone
       end) ∧
  ((∀ k v, kwargs !! k = Some v →
      (__setattr__ k v {| __class__ := cls; __dict__ := ∅ |}).1 = Ok tt) →
   (∃ k p, cls_dict cls !! k = Some (AProperty p) ∧ startswith_underscore k = false ∧
           required p = true ∧ kwargs !! k = None) →
   ∃ k p, new cls kwargs = Raise (RequiredProperty k) ∧
          cls_dict cls !! k = Some (AProperty p) ∧ startswith_underscore k = false ∧
          required p = true ∧ kwargs !! k = None).
Proof.
  split.
  - intros inst Hnew k p Hk Hpub. apply new_Ok_init in Hnew. apply init_inv in Hnew.
    destruct (for_each (map_to_list kwargs) _ _) as [[[]|e] s1]; [|done].
    destruct Hnew as [(? & ? & [=] & _)|[Hreq [[[=] _]|(_ & _ & _ & _ & Hc & Hd & _)]]].
    destruct (kwargs !! k) as [v|] eqn:Hv.
    + apply Hc; [by apply public_not_node|congruence|done].
    + split; [by apply (Hreq k p)|by apply (Hd k p)].
  - intros Hacc (k & p & Hk & Hpub & Hr & Hn).
    destruct (__init__ kwargs {| __class__ := cls; __dict__ := ∅ |}) as [r self'] eqn:E.
    assert (E' := E). apply init_inv in E'.
    destruct (for_each (map_to_list kwargs) _ _) as [[[]|e] s1] eqn:E1.
    + destruct E' as [(k' & p' & -> & H')|[Hreq _]].
      * exists k', p'. split; [|done]. unfold new. by rewrite E.
      * specialize (Hreq k p Hk Hpub Hn). congruence.
    + exfalso. clear E E'. revert E1.
      assert (Hall : ∀ kv, kv ∈ map_to_list kwargs →
                (__setattr__ kv.1 kv.2 {| __class__ := cls; __dict__ := ∅ |}).1 = Ok tt).
      { intros [k0 v0] Hin. apply Hacc. by apply elem_of_map_to_list. }
      generalize (∅ : gmap string pyvalue). intros d. revert Hall d.
      induction (map_to_list kwargs) as [|[k0 v0] l IH]; intros Hall d; simpl.
      * by step.
      * unfold bind at 1.
        destruct (__setattr__ k0 v0 {| __class__ := cls; __dict__ := d |})
          as [[[]|e0] s2] eqn:E2.
        -- apply setattr_inv in E2 as [[_ ->]|(? & [=] & _)]. simpl.
           apply IH. intros kv Hin. apply Hall. by right.
        -- specialize (Hall (k0, v0) (list_elem_of_here _ _)). simpl in Hall.
           rewrite (setattr_outcome_class k0 v0 cls ∅ d), E2 in Hall. discriminate.
Qed.

(** For [Person], [Person(age=3)] lacks the required [name]. *)
Lemma construction_checks_required_witness :
  ∃ k p, new Person {["age" := PInt 3]} = Raise (RequiredProperty k) ∧
         cls_dict Person !! k = Some (AProperty p) ∧ startswith_underscore k = false ∧
         required p = true ∧ ({["age" := PInt 3]} : gmap string pyvalue) !! k = None.
Proof.
  apply (proj2 (construction_checks_required Person {["age" := PInt 3]})).
  - intros k v H. apply lookup_singleton_Some in H as [<- <-]. vm_compute. reflexivity.
  - exists "name", Person_name. vm_compute. repeat split; reflexivity.
Defined.

(** ** How the index update changes the world *)

Lemma same_graph_refl w : same_graph w w.
Proof. by repeat split. Qed.

Lemma same_graph_trans w1 w2 w3 :
  same_graph w1 w2 → same_graph w2 w3 → same_graph w1 w3.
Proof.
  intros (?&?&?&?&?&?) (?&?&?&?&?&?). repeat split; congruence.
Qed.

Lemma indexes_grow_refl P w : indexes_grow P w w.
Proof.
  split_and!; [apply same_graph_refl| |done|by left].
  exists []. by rewrite app_nil_r.
Qed.

Lemma indexes_grow_trans P w1 w2 w3 :
  indexes_grow P w1 w2 → indexes_grow P w2 w3 → indexes_grow P w1 w3.
Proof.
  intros (Hg1 & [j1 Hj1] & Hk1 & Hn1) (Hg2 & [j2 Hj2] & Hk2 & Hn2).
  split_and!.
  - by eapply same_graph_trans.
  - exists (j1 ++ j2)%list. by rewrite Hj2, Hj1, app_assoc.
  - intros idx e H. by apply Hk2, Hk1.
  - intros idx e H. apply Hn2 in H as [H|H]; [by apply Hn1 in H|by right].
Qed.

Lemma indexes_grow_remote P c w : indexes_grow P w (remote c w).2.
Proof.
  unfold remote, modify. simpl.
  split_and!; [by repeat split|by eexists|done|by left].
Qed.

Lemma get_or_create_index_inv P idx w r w' :
  get_or_create_index idx w = (r, w') → r = Ok idx ∧ indexes_grow P w w'.
Proof.
  unfold get_or_create_index. step. intros [= <- <-]. split; [done|].
  assert (He : ∀ i, entries_of i
             (set_indexes (λ ix, match ix !! idx with
                                 | Some _ => ix
                                 | None => <[idx := []]> ix
                                 end) (remote (CGetOrCreateIndex idx) w).2)
             = entries_of i w).
  { intros i. unfold entries_of. simpl. destruct (indexes w !! idx) eqn:E; [done|].
    destruct (decide (i = idx)) as [->|Hne].
    - by rewrite lookup_insert_eq, E.
    - by rewrite lookup_insert_ne. }
  split_and!; [by repeat split|by eexists| |].
  - intros i e. by rewrite He.
  - intros i e. rewrite He. by left.
Qed.

Lemma class_index_inv P cls w r w' :
  class_index cls w = (r, w') → indexes_grow P w w'.
Proof.
  unfold class_index. destruct (lookup_mro (mro cls) "index") as [[owner []]|];
    try (unfold raise; intros [= <- <-]; apply indexes_grow_refl).
  unfold _index. simpl. intros H. by apply (get_or_create_index_inv P) in H as [_ H].
Qed.

Lemma elem_of_add_entry idx e0 ix i e :
  e ∈ default [] (add_entry idx e0 ix !! i) ↔
  e ∈ default [] (ix !! i) ∨ (i = idx ∧ e = e0).
Proof.
  unfold add_entry. destruct (decide (i = idx)) as [->|Hne].
  - rewrite lookup_insert_eq. simpl. rewrite elem_of_app, list_elem_of_singleton. naive_solver.
  - rewrite lookup_insert_ne by done. naive_solver.
Qed.

Lemma run_op_inv op ix r ix' :
  run_op op ix = (r, ix') →
  (∀ i e, e ∈ default [] (ix !! i) → e ∈ default [] (ix' !! i)) ∧
  (∀ i e, e ∈ default [] (ix' !! i) → e ∈ default [] (ix !! i) ∨ e = op_entry op).
Proof.
  destruct op as [idx k v n|idx k v n|idx k v n]; simpl;
    try destruct (existsb _ _); intros [= <- <-];
    (split; intros i e; rewrite ?elem_of_add_entry; naive_solver).
Qed.

Lemma run_ops_inv ops ix r ix' :
  run_ops ops ix = (r, ix') →
  (∀ i e, e ∈ default [] (ix !! i) → e ∈ default [] (ix' !! i)) ∧
  (∀ i e, e ∈ default [] (ix' !! i) →
          e ∈ default [] (ix !! i) ∨ ∃ op, op ∈ ops ∧ e = op_entry op).
Proof.
  revert ix r ix'. induction ops as [|op ops IH]; intros ix r ix'; simpl.
  - step. intros [= <- <-]. naive_solver.
  - unfold bind at 1. destruct (run_op op ix) as [[x|e0] ix1] eqn:E1.
    + apply run_op_inv in E1 as [Hk1 Hn1].
      unfold bind at 1. destruct (run_ops ops ix1) as [[xs|e1] ix2] eqn:E2;
        apply IH in E2 as [Hk2 Hn2]; step; intros [= <- <-].
      all: split; [intros i e H; by apply Hk2, Hk1|].
      all: intros i e H; apply Hn2 in H as [H|(op' & Hop & ->)];
        [apply Hn1 in H as [H| ->]; [by left|right; exists op; split; [by left|done]]
        |right; exists op'; split; [by right|done]].
    + apply run_op_inv in E1 as [Hk1 Hn1]. intros [= <- <-].
      split; [done|]. intros i e H. apply Hn1 in H as [H| ->]; [by left|].
      right. exists op. split; [by left|done].
Qed.

Lemma batch_submit_inv (P : index_entry → Prop) ops w r w' :
  Forall (λ op, P (op_entry op)) ops →
  batch_submit ops w = (r, w') → indexes_grow P w w'.
Proof.
  intros HP. unfold batch_submit. unfold bind at 1. simpl.
  destruct (run_ops ops (indexes w)) as [[rs|e] ix] eqn:E; intros [= <- <-].
  - apply run_ops_inv in E as [Hk Hn].
    split_and!; [by repeat split|by eexists| |].
    + intros i e. apply Hk.
    + intros i e H. apply Hn in H as [H|(op & Hop & ->)]; [by left|right].
      by apply (proj1 (Forall_forall _ _) HP).
  - apply indexes_grow_remote.
Qed.

Lemma on_world_class_index_inv P cls self w r s' :
  on_world (class_index cls) (self, w) = (r, s') →
  s'.1 = self ∧ indexes_grow P w s'.2 ∧
  match r with Ok _ => True | Raise e => ∃ a, e = AttributeError a end.
Proof.
  unfold on_world. destruct (class_index cls w) as [r0 w0] eqn:E. intros [= <- <-]. simpl.
  split; [done|]. split; [by apply (class_index_inv P) in E|].
  destruct r0 as [i|e]; [done|]. revert E. unfold class_index.
  destruct (lookup_mro (mro cls) "index") as [[owner []]|]; unfold raise;
    intros [= <- _]; by eexists.
Qed.

Lemma get_node_inv s r s' :
  get_node s = (r, s') →
  s' = s ∧
  match r with
  | Ok v => __dict__ s.1 !! "__node__" = Some v
  | Raise e => ∃ a, e = AttributeError a
  end.
Proof.
  unfold get_node. step. destruct (__dict__ s.1 !! "__node__"); intros [= <- <-];
    split; try done. by eexists.
Qed.

(** One batch-building method call, after its arguments are evaluated. *)
Lemma add_to_batch_inv P cls self w batch key value r s'
    (method : list batch_op → string → string → pyvalue → pyvalue
              → M (Instance * World) (list batch_op))
    (ctor : string → string → pyvalue → entity_id → batch_op) :
  (∀ i k v n, op_entry (ctor i k v n) = {| ie_key := k; ie_value := v; ie_node := n |}) →
  (∀ b i k v nd, method b i k v nd
                 = (let! n := batch_node nd in ret (b ++ [ctor i k v n])%list)) →
  (let! idx := on_world (class_index cls) in
   let! node := get_node in
   method batch idx key value node) (self, w) = (r, s') →
  s'.1 = self ∧ indexes_grow P w s'.2 ∧
  match r with
  | Ok batch' =>
      ∃ op n, batch' = (batch ++ [op])%list ∧ __dict__ self !! "__node__" = Some (PNode n)
              ∧ op_entry op = {| ie_key := key; ie_value := value; ie_node := n |}
  | Raise e => ∃ a, e = AttributeError a
  end.
Proof.
  intros Hctor Hmeth. unfold bind at 1.
  destruct (on_world (class_index cls) (self, w)) as [[idx|e] [self1 w1]] eqn:E1;
    apply (on_world_class_index_inv P) in E1 as (E11 & E12 & E13); simpl in *; subst self1.
  2:{ intros [= <- <-]. done. }
  unfold bind at 1.
  destruct (get_node (self, w1)) as [[node|e] s2] eqn:E2;
    apply get_node_inv in E2 as [-> E2]; simpl in *.
  2:{ intros [= <- <-]. done. }
  rewrite Hmeth. unfold batch_node.
  destruct node; step; intros [= <- <-]; simpl; split_and!; try done; try by eexists.
  eexists _, _. split_and!; try done.
Qed.

Lemma index_item_inv P cls batch key value self w r s' :
  index_item cls batch key value (self, w) = (r, s') →
  s'.1 = self ∧ indexes_grow P w s'.2 ∧
  match r with
  | Ok batch' =>
      batch' = batch ∨
      ∃ op n, batch' = (batch ++ [op])%list ∧ __dict__ self !! "__node__" = Some (PNode n)
              ∧ op_entry op = {| ie_key := key; ie_value := value; ie_node := n |}
  | Raise e => ∃ a, e = AttributeError a
  end.
Proof.
  assert (Hnop : ∀ b : list batch_op, (Ok b, (self, w)) = (r, s') →
    s'.1 = self ∧ indexes_grow P w s'.2 ∧
    match r with
    | Ok batch' =>
        batch' = b ∨
        ∃ op n, batch' = (b ++ [op])%list ∧ __dict__ self !! "__node__" = Some (PNode n)
                ∧ op_entry op = {| ie_key := key; ie_value := value; ie_node := n |}
    | Raise e => ∃ a, e = AttributeError a
    end).
  { intros b [= <- <-]. split_and!; [done|apply indexes_grow_refl|by left]. }
  assert (Hadd : ∀ r s', s'.1 = self ∧ indexes_grow P w s'.2 ∧
    match r with
    | Ok batch' =>
        ∃ op n, batch' = (batch ++ [op])%list ∧ __dict__ self !! "__node__" = Some (PNode n)
                ∧ op_entry op = {| ie_key := key; ie_value := value; ie_node := n |}
    | Raise e => ∃ a, e = AttributeError a
    end →
    s'.1 = self ∧ indexes_grow P w s'.2 ∧
    match r with
    | Ok batch' =>
        batch' = batch ∨
        ∃ op n, batch' = (batch ++ [op])%list ∧ __dict__ self !! "__node__" = Some (PNode n)
                ∧ op_entry op = {| ie_key := key; ie_value := value; ie_node := n |}
    | Raise e => ∃ a, e = AttributeError a
    end).
  { intros r0 s0 (? & ? & H). split_and!; [done..|]. destruct r0; [by right|done]. }
  unfold index_item. case_bool_decide as Hdom; [|apply Hnop].
  unfold bind at 1, lift at 1.
  unfold get_property. apply elem_of_dom in Hdom as [a Ha].
  rewrite (getattr_class_own _ _ _ Ha).
  destruct a as [p| | | | | |];
    try (unfold raise; intros [= <- <-]; split_and!;
         [done|apply indexes_grow_refl|by eexists]).
  destruct (unique_index p).
  - unfold try_except.
    destruct ((let! idx := on_world (class_index cls) in
               let! node := get_node in
               batch_add_indexed_node_or_fail batch idx key value node) (self, w))
      as [r1 s1] eqn:E1.
    (* the atomic method, with or without server support *)
    revert E1. unfold bind at 1.
    destruct (on_world (class_index cls) (self, w)) as [[idx|e] [self1 w1]] eqn:E1;
      apply (on_world_class_index_inv P) in E1 as (E11 & E12 & E13); simpl in *; subst self1.
    2:{ intros [= <- <-]. destruct E13 as [a ->]. unfold raise. intros [= <- <-]. eauto. }
    unfold bind at 1.
    destruct (get_node (self, w1)) as [[node|e] s2] eqn:E2;
      apply get_node_inv in E2 as [-> E2]; simpl in *.
    2:{ intros [= <- <-]. destruct E2 as [a ->]. unfold raise. intros [= <- <-]. eauto. }
    unfold batch_add_indexed_node_or_fail. unfold bind at 1, gets at 1.
    destruct (supports_index_uniqueness_modes w1).
    + unfold batch_node. destruct node; step; intros [= <- <-];
        try (intros [= <- <-]; simpl; split_and!; try done; by eexists).
      intros [= <- <-]. simpl. split_and!; try done. right. by eexists _, _.
    + unfold raise at 1. intros [= <- <-]. intros H.
      apply (add_to_batch_inv P _ _ _ _ _ _ _ _ _ get_or_add_indexed_node) in H;
        [|done|done].
      destruct H as (H1 & H2 & H3). split_and!; [done| |].
      * by eapply indexes_grow_trans.
      * destruct r; [by right|done].
  - destruct (index p); [|apply Hnop].
    intros H. apply Hadd.
    by apply (add_to_batch_inv P _ _ _ _ _ _ _ _ _ add_indexed_node) in H.
Qed.

Lemma fill_batch_inv P cls items batch self w r s' :
  fill_batch cls items batch (self, w) = (r, s') →
  s'.1 = self ∧ indexes_grow P w s'.2 ∧
  match r with
  | Ok batch' =>
      ∃ added, batch' = (batch ++ added)%list ∧
               Forall (λ op, entry_from self items (op_entry op)) added
  | Raise e => ∃ a, e = AttributeError a
  end.
Proof.
  revert batch w. induction items as [|[key value] items IH]; intros batch w; simpl.
  - unfold ret. intros [= <- <-]. split_and!; [done|apply indexes_grow_refl|].
    exists []. by rewrite app_nil_r.
  - unfold bind at 1.
    destruct (index_item cls batch key value (self, w)) as [[b1|e] [self1 w1]] eqn:E1;
      apply (index_item_inv P) in E1 as (E11 & E12 & E13); simpl in *; subst self1.
    2:{ by intros [= <- <-]. }
    intros H. apply IH in H as (H1 & H2 & H3). split_and!; [done| |].
    { by eapply indexes_grow_trans. }
    destruct r as [batch'|e]; [|done].
    destruct H3 as (added & -> & Hall).
    assert (Hall' : Forall (λ op, entry_from self ((key, value) :: items) (op_entry op)) added).
    { eapply Forall_impl; [exact Hall|]. intros op [? ?]. split; [done|by right]. }
    destruct E13 as [->|(op & n & -> & Hn & Hop)].
    + by exists added.
    + exists (op :: added). split; [by rewrite <- app_assoc|].
      constructor; [|done]. split; rewrite Hop; simpl; [done|by left].
Qed.

Lemma submit_checked_inv (P : index_entry → Prop) batch self w r s' :
  Forall (λ op, P (op_entry op)) batch →
  submit_checked batch (self, w) = (r, s') →
  s'.1 = self ∧ indexes_grow P w s'.2 ∧
  match r with
  | Ok _ => True
  | Raise e => ∃ u, e = NotUnique ("A supplied value is not unique" +:+ u)
  end.
Proof.
  intros HP. unfold submit_checked, try_except. unfold bind at 1, on_world at 1.
  destruct (batch_submit batch w) as [[rs|e] w1] eqn:E1.
  - apply (batch_submit_inv P) in E1; [|done].
    assert (Hloop : ∀ rs r s', for_each rs (λ r : batch_result,
              if (status r =? 200)%Z
              then raise (NotUnique ("A supplied value is not unique" +:+ uri r))
              else ret ()) (self, w1) = (r, s') →
            s' = (self, w1) ∧
            match r with
            | Ok _ => True
            | Raise e => ∃ u, e = NotUnique ("A supplied value is not unique" +:+ u)
            end).
    { clear. intros rs. induction rs as [|x rs IH]; intros r s'; simpl.
      - unfold ret. by intros [= <- <-].
      - unfold bind at 1. destruct (status x =? 200)%Z.
        + unfold raise. intros [= <- <-]. split; [done|by eexists].
        + unfold ret at 1. apply IH. }
    destruct (for_each rs _ (self, w1)) as [[[]|e] s1] eqn:E2;
      apply Hloop in E2 as [-> E2].
    + by intros [= <- <-].
    + destruct E2 as [u ->]. unfold raise. intros [= <- <-]. simpl.
      split_and!; [done|done|by eexists].
  - assert (E1' := E1). apply (batch_submit_inv P) in E1'; [|done].
    assert (∃ u, e = ResourceConflict u) as [u ->].
    { revert E1. unfold batch_submit. unfold bind at 1. simpl.
      destruct (run_ops batch (indexes w)) as [[rs|e0] ix] eqn:E; [done|].
      intros [= <- _]. clear -E. revert ix E. generalize (indexes w).
      induction batch as [|op ops IH]; intros ix0 ix; simpl; [done|].
      unfold bind at 1. destruct (run_op op ix0) as [[x|e1] ix1] eqn:E1.
      - unfold bind at 1. destruct (run_ops ops ix1) as [[xs|e2] ix2] eqn:E2; [done|].
        intros [= <- <-]. by eapply IH.
      - intros [= <- <-]. revert E1. destruct op; simpl;
          try destruct (existsb _ _); intros [= <- _]; try done; by eexists. }
    unfold raise. intros [= <- <-]. simpl. split_and!; [done..|by eexists].
Qed.

(** [_update_index] leaves the instance and the graph alone: it only
    adds index entries for the node of [self], taken from [props], and
    it raises nothing but [NotUnique] or an [AttributeError]. *)
Lemma update_classes_inv classes props self w r s' :
  update_classes classes props (self, w) = (r, s') →
  s'.1 = self ∧ indexes_grow (entry_from self (map_to_list props)) w s'.2 ∧
  match r with
  | Ok _ => True
  | Raise e => (∃ a, e = AttributeError a)
               ∨ ∃ u, e = NotUnique ("A supplied value is not unique" +:+ u)
  end.
Proof.
  revert w. induction classes as [|cls rest IH]; intros w; simpl.
  - unfold ret. intros [= <- <-]. split_and!; [done|apply indexes_grow_refl|done].
  - destruct (_ || _).
    { unfold ret. intros [= <- <-]. split_and!; [done|apply indexes_grow_refl|done]. }
    unfold bind at 1.
    destruct (fill_batch cls (map_to_list props) [] (self, w)) as [[batch|e] [self1 w1]] eqn:E1;
      apply (fill_batch_inv (entry_from self (map_to_list props))) in E1
        as (E11 & E12 & E13); simpl in *; subst self1.
    2:{ intros [= <- <-]. split_and!; [done|done|by left]. }
    destruct E13 as (added & -> & Hall). simpl in Hall.
    unfold bind at 1.
    destruct (submit_checked added (self, w1)) as [[[]|e] [self2 w2]] eqn:E2;
      apply (submit_checked_inv (entry_from self (map_to_list props))) in E2
        as (E21 & E22 & E23); try done; simpl in *; subst self2.
    2:{ intros [= <- <-]. split_and!; [done| |by right]. by eapply indexes_grow_trans. }
    intros H. apply IH in H as (H1 & H2 & H3). split_and!; [done| |done].
    eapply indexes_grow_trans; [|exact H2]. by eapply indexes_grow_trans.
Qed.

Lemma update_index_inv props self w r s' :
  _update_index props (self, w) = (r, s') →
  s'.1 = self ∧ indexes_grow (entry_from self (map_to_list props)) w s'.2 ∧
  match r with
  | Ok _ => True
  | Raise e => (∃ a, e = AttributeError a)
               ∨ ∃ u, e = NotUnique ("A supplied value is not unique" +:+ u)
  end.
Proof.
  intros H. apply (update_classes_inv (mro (__class__ self)) props). exact H.
Qed.

(** ** Deleting and rolling back *)

Lemma elem_of_List_filter {A} (f : A → bool) (l : list A) x :
  x ∈ List.filter f l ↔ x ∈ l ∧ f x = true.
Proof. rewrite !list_elem_of_In. apply filter_In. Qed.

(** [delete] on a persisted instance: the node and every relationship
    touching it leave the store, and the handle is cleared. *)
Lemma delete_inv self w n :
  __dict__ self !! "__node__" = Some (PNode n) →
  getattr_class (__class__ self) "__node__" ≠ Some ADataDescriptor →
  ∃ w', delete (self, w) = (Ok true, (set_dict <["__node__" := PNone]> self, w')) ∧
        nodes w' !! n = None ∧
        (∀ r, r ∈ rels w' → rel_start r ≠ n ∧ rel_end r ≠ n) ∧
        (∀ m, m ≠ n → nodes w' !! m = nodes w !! m).
Proof.
  intros Hn Hdd. unfold delete. unfold bind at 1.
  unfold get_node. unfold bind at 1, gets at 1. simpl. rewrite Hn. unfold ret at 1. simpl.
  unfold bind at 1. unfold on_world at 1.
  destruct (get_relationships n w) as [r1 w1] eqn:E1.
  revert E1. unfold get_relationships. unfold bind at 1. simpl. unfold gets.
  intros [= <- <-]. unfold bind at 1. unfold on_world at 1.
  destruct (client_delete _ _) as [r2 w2] eqn:E2.
  revert E2. unfold client_delete. unfold bind at 1. simpl. unfold modify.
  intros [= <- <-]. unfold bind at 1. unfold on_self at 1.
  unfold __setattr__. simpl. unfold object_setattr. unfold bind at 1, gets at 1.
  eexists. split.
  { destruct (getattr_class (__class__ self) "__node__") as [[]|]; try done. }
  simpl. split_and!.
  - apply map_lookup_filter_None. right. intros x _ Hx. apply Hx. simpl.
    apply elem_of_app. right. by left.
  - intros r Hr. apply elem_of_List_filter in Hr as [Hr Hid].
    apply negb_true_iff, bool_decide_eq_false in Hid.
    assert (H : (rel_start r =? n)%nat || (rel_end r =? n)%nat = false).
    { destruct (_ || _) eqn:Ht; [|done]. exfalso. apply Hid.
      apply elem_of_app. left. apply list_elem_of_fmap. exists r. split; [done|].
      by apply elem_of_List_filter. }
    apply orb_false_iff in H as [H1 H2].
    by apply Nat.eqb_neq in H1, H2.
  - intros m Hm. destruct (nodes w !! m) as [x|] eqn:Ex.
    + apply map_lookup_filter_Some. split; [done|]. simpl.
      rewrite elem_of_app, list_elem_of_singleton, list_elem_of_fmap.
      intros [(r & [=] & _)|[= ->]]. done.
    + apply map_lookup_filter_None. by left.
Qed.

Lemma client_create_inv props start type w :
  ∃ w', client_create props start type w = (Ok (PNode (next_id w), S (next_id w)), w') ∧
        nodes w' !! next_id w = Some props.
Proof.
  unfold client_create. step. eexists. split; [done|]. simpl. apply lookup_insert_eq.
Qed.

(** The create path when the index update fails: the state reached is
    the one [delete] produces from the state of the failure, and the
    error is the one of the index update. *)
Lemma create_failure self w props category w0 n rel w1 self1 e s2 :
  category_factory (__class__ self) w = (Ok category, w0) →
  client_create props (cat_node category) (upper (cls_name (__class__ self))) w0
    = (Ok (PNode n, rel), w1) →
  __setattr__ "__node__" (PNode n) self = (Ok tt, self1) →
  _update_index props (self1, w1) = (Raise e, s2) →
  ∃ w3, let self3 := set_dict <["__node__" := PNone]> self1 in
    _create props (self, w) = (Raise e, (self3, w3)) ∧
    delete s2 = (Ok true, (self3, w3)) ∧
    nodes w1 !! n = Some props ∧
    nodes w3 !! n = None ∧
    (∀ r, r ∈ rels w3 → rel_start r ≠ n ∧ rel_end r ≠ n).
Proof.
  intros Hcat Hcreate Hset Hupd.
  assert (Hupd' := Hupd). apply update_index_inv in Hupd' as (Hs & _ & _).
  destruct s2 as [self2 w2]. simpl in Hs. subst self2.
  assert (Hset' := Hset). apply setattr_inv in Hset' as [[_ ->]|(? & [=] & _)].
  destruct (delete_inv (set_dict <["__node__" := PNode n]> self) w2 n)
    as (w3 & Hdel & Hnone & Hrels & _).
  { simpl. apply lookup_insert_eq. }
  { revert Hset. unfold __setattr__. simpl. unfold object_setattr. step.
    destruct (getattr_class (__class__ self) "__node__") as [[]|]; done. }
  exists w3. simpl. split_and!; try done.
  - unfold _create. unfold bind at 1, gets at 1. simpl.
    unfold bind at 1, on_world at 1. rewrite Hcat.
    unfold bind at 1, on_world at 1. rewrite Hcreate.
    unfold bind at 1, on_self at 1. rewrite Hset.
    unfold try_except. rewrite Hupd.
    unfold bind at 1. rewrite Hdel. done.
  - destruct (client_create_inv props (cat_node category)
                (upper (cls_name (__class__ self))) w0) as (w1' & Hc & Hn).
    rewrite Hc in Hcreate. by injection Hcreate as <- <- <-.
Qed.

(** C1: the create path when indexing fails.  Once the category is
    known, the new node [n] is written and recorded as the handle; if
    the index update then raises any error [e], [_create] raises that
    same error, and the node that had just been written is gone from
    the store together with every relationship touching it. *)
Theorem create_rolls_back (self : Instance) (w : World) (props : gmap string pyvalue)
    (category : CategoryNode) (w0 : World) (n rel : entity_id) (w1 : World)
    (self1 : Instance) (e : error) (s2 : Instance * World) :
  category_factory (__class__ self) w = (Ok category, w0) →
  client_create props (cat_node category) (upper (cls_name (__class__ self))) w0
    = (Ok (PNode n, rel), w1) →
  __setattr__ "__node__" (PNode n) self = (Ok tt, self1) →
  _update_index props (self1, w1) = (Raise e, s2) →
  ∃ self3 w3,
    _create props (self, w) = (Raise e, (self3, w3)) ∧
    nodes w1 !! n = Some props ∧
    nodes w3 !! n = None ∧
    (∀ r, r ∈ rels w3 → rel_start r ≠ n ∧ rel_end r ≠ n).
Proof.
  intros H1 H2 H3 H4.
  destruct (create_failure _ _ _ _ _ _ _ _ _ _ _ H1 H2 H3 H4) as (w3 & Hc & _ & Hn1 & Hn3 & Hr).
  by eexists _, w3.
Qed.

(** Saving a second [Person] named alice: the unique index refuses it
    and node 3, written for it, is removed again. *)
Lemma create_rolls_back_witness :
  ∃ w1 self3 w3,
    _create (properties alice_again) (alice_again, store_with_alice)
    = (Raise (NotUnique "A supplied value is not uniqueindex/node/Person/name"),
       (self3, w3)) ∧
    nodes w1 !! 3 = Some (properties alice_again) ∧
    nodes w3 !! 3 = None ∧
    (∀ r, r ∈ rels w3 → rel_start r ≠ 3 ∧ rel_end r ≠ 3).
Proof.
  eexists.
  eapply (create_rolls_back alice_again store_with_alice (properties alice_again));
    vm_compute; reflexivity.
Defined.

(** C10: the rollback of the create path is the instance's own
    [delete], run in the state the failed index update left.  After the
    error has propagated the handle of the instance is null, and a
    further [save] of that instance takes the create path again. *)
Theorem rollback_clears_handle (self : Instance) (w : World) (props : gmap string pyvalue)
    (category : CategoryNode) (w0 : World) (n rel : entity_id) (w1 : World)
    (self1 : Instance) (e : error) (s2 : Instance * World) :
  category_factory (__class__ self) w = (Ok category, w0) →
  client_create props (cat_node category) (upper (cls_name (__class__ self))) w0
    = (Ok (PNode n, rel), w1) →
  __setattr__ "__node__" (PNode n) self = (Ok tt, self1) →
  _update_index props (self1, w1) = (Raise e, s2) →
  ∃ s3,
    delete s2 = (Ok true, s3) ∧
    _create props (self, w) = (Raise e, s3) ∧
    __dict__ s3.1 !! "__node__" = Some PNone ∧
    save s3 = (let! _ := _create (properties s3.1) in gets fst) s3.
Proof.
  intros H1 H2 H3 H4.
  destruct (create_failure _ _ _ _ _ _ _ _ _ _ _ H1 H2 H3 H4) as (w3 & Hc & Hd & _).
  eexists. split_and!; [exact Hd|exact Hc|apply lookup_insert_eq|].
  unfold save. unfold bind at 1. unfold get_node. unfold bind at 1, gets at 1.
  cbn [fst snd set_dict __dict__]. rewrite lookup_insert_eq. unfold ret at 1.
  cbn [truthy]. unfold bind at 1 3. unfold gets at 1. done.
Qed.

(** The second alice again: after the refused save she is transient. *)
Lemma rollback_clears_handle_witness :
  ∃ s2 s3,
    delete s2 = (Ok true, s3) ∧
    _create (properties alice_again) (alice_again, store_with_alice)
    = (Raise (NotUnique "A supplied value is not uniqueindex/node/Person/name"), s3) ∧
    __dict__ s3.1 !! "__node__" = Some PNone ∧
    save s3 = (let! _ := _create (properties s3.1) in gets fst) s3.
Proof.
  eexists.
  eapply (rollback_clears_handle alice_again store_with_alice (properties alice_again));
    vm_compute; reflexivity.
Defined.

(** ** The [properties] snapshot *)

Lemma cond_fold_lookup (c : string → pyvalue → bool) (l : list (string * pyvalue))
    (acc : gmap string pyvalue) k v :
  NoDup l.*1 →
  foldl (λ props '(key, value), if c key value then <[key := value]> props else props)
        acc l !! k = Some v ↔
  ((k, v) ∈ l ∧ c k v = true) ∨ (acc !! k = Some v ∧ ∀ v', (k, v') ∈ l → c k v' = false).
Proof.
  revert acc. induction l as [|[k0 v0] l IH]; intros acc Hnd; simpl.
  - split; [intros H; right; split; [done|]; intros v' Hv'; by apply elem_of_nil in Hv'|].
    intros [[H _]|[H _]]; [by apply elem_of_nil in H|done].
  - inversion Hnd as [|?? Hnotin Hnd']; subst. rewrite IH by done. clear IH.
    assert (Hk0 : ∀ x, (k0, x) ∈ l → False).
    { intros x H. apply Hnotin. apply list_elem_of_fmap. by exists (k0, x). }
    split.
    + intros [[H ?]|[H Hall]]; [left; split; [by right|done]|].
      destruct (c k0 v0) eqn:Hc.
      * destruct (decide (k = k0)) as [->|Hne].
        -- rewrite lookup_insert_eq in H. injection H as <-. left. split; [by left|done].
        -- rewrite lookup_insert_ne in H by done. right. split; [done|].
           intros v' Hv'. apply elem_of_cons in Hv' as [[= -> _]|Hv']; [done|by apply Hall].
      * right. split; [done|]. intros v' Hv'.
        apply elem_of_cons in Hv' as [[= -> ->]|Hv']; [done|by apply Hall].
    + intros [[H Hc]|[H Hall]].
      * apply elem_of_cons in H as [[= -> ->]|H]; [|by left].
        right. rewrite Hc, lookup_insert_eq. split; [done|]. intros v' Hv'. by destruct (Hk0 v').
      * right. split; [|intros v' Hv'; apply Hall; by right].
        destruct (c k0 v0) eqn:Hc; [|done].
        rewrite lookup_insert_ne; [done|]. intros ->.
        specialize (Hall v0 (list_elem_of_here _ _)). congruence.
Qed.

(** What the snapshot holds: the attributes of the instance with a
    public name and a value that is not null, not a bound method and
    not a relationship manager. *)
Lemma properties_lookup self k v :
  properties self !! k = Some v ↔
  __dict__ self !! k = Some v ∧ startswith_underscore k = false ∧
  v ≠ PMethod ∧ v ≠ PRelationshipManager ∧ v ≠ PNone.
Proof.
  unfold properties.
  rewrite (cond_fold_lookup
             (λ key value, negb (startswith_underscore key)
                           && negb (bool_decide (value = PMethod))
                           && negb (bool_decide (value = PRelationshipManager))
                           && bool_decide (value ≠ PNone)))
    by apply NoDup_fst_map_to_list.
  rewrite lookup_empty, elem_of_map_to_list.
  rewrite !andb_true_iff, !negb_true_iff, !bool_decide_eq_false, bool_decide_eq_true.
  naive_solver.
Qed.

Lemma create_ok_inv props self w self' w' :
  _create props (self, w) = (Ok tt, (self', w')) →
  ∃ n, self' = set_dict <["__node__" := PNode n]> self ∧ nodes w' !! n = Some props.
Proof.
  unfold _create. unfold bind at 1, gets at 1. simpl.
  unfold bind at 1, on_world at 1.
  destruct (category_factory (__class__ self) w) as [[category|e] w0]; [|done].
  unfold bind at 1, on_world at 1.
  destruct (client_create_inv props (cat_node category)
              (upper (cls_name (__class__ self))) w0) as (w1 & -> & Hn).
  unfold bind at 1, on_self at 1.
  destruct (__setattr__ "__node__" (PNode (next_id w0)) self) as [[[]|e] self1] eqn:E1; [|done].
  apply setattr_inv in E1 as [[_ ->]|(? & [=] & _)].
  unfold try_except.
  destruct (_update_index props _) as [[[]|e] s2] eqn:E2.
  - apply update_index_inv in E2 as (Hs & ((Hnodes & _) & _) & _).
    intros [= ->]. simpl in *. subst self'. exists (next_id w0). split; [done|].
    by rewrite Hnodes.
  - unfold bind. by destruct (delete s2) as [[?|?] ?].
Qed.

(** ** Saving *)

Lemma save_transient self w v :
  __dict__ self !! "__node__" = Some v → truthy v = false →
  save (self, w) = (let! _ := _create (properties self) in gets fst) (self, w).
Proof.
  intros Hv Ht. unfold save. unfold bind at 1. unfold get_node.
  unfold bind at 1, gets at 1. cbn [fst]. rewrite Hv. unfold ret at 1. rewrite Ht.
  unfold bind at 1 3. unfold gets at 1. done.
Qed.

(** The world in which [save] re-runs the index update of a persisted
    instance; [idx] is the index of the instance's own class. *)
Lemma save_persisted self w n owner idx :
  __dict__ self !! "__node__" = Some (PNode n) →
  lookup_mro (mro (__class__ self)) "index" = Some (owner, AIndexManager idx) →
  ∃ w2,
    nodes w2 = <[n := properties self]> (nodes w) ∧
    (∀ e, e ∈ entries_of idx w2 ↔ e ∈ entries_of idx w ∧ ie_node e ≠ n) ∧
    (∀ i, i ≠ idx → entries_of i w2 = entries_of i w) ∧
    save (self, w) = (let! _ := _update_index (properties self) in gets fst) (self, w2).
Proof.
  intros Hn Hidx.
  exists (index_remove idx n
            (get_or_create_index idx (set_properties n (properties self) w).2).2).2.
  split_and!.
  - done.
  - intros e. unfold entries_of. simpl. rewrite lookup_alter_eq.
    destruct (indexes w !! idx) as [es|] eqn:E; simpl.
    + rewrite E. simpl. rewrite elem_of_List_filter, negb_true_iff, Nat.eqb_neq. done.
    + rewrite lookup_insert_eq. simpl. split; [intros H; by apply elem_of_nil in H|].
      intros [H _]. by apply elem_of_nil in H.
  - intros i Hi. unfold entries_of. simpl. rewrite lookup_alter_ne by done.
    destruct (indexes w !! idx) eqn:E; [done|]. by rewrite lookup_insert_ne.
  - unfold save. unfold bind at 1. unfold get_node.
    unfold bind at 1, gets at 1. cbn [fst]. rewrite Hn. unfold ret at 1. cbn [truthy].
    unfold bind at 1. unfold bind at 1. unfold gets at 1. cbn [fst].
    unfold bind at 1. unfold on_world at 1.
    unfold bind at 1. unfold on_world at 1. unfold class_index. rewrite Hidx.
    reflexivity.
Qed.

Lemma save_persisted_nodes self w n r s' :
  __dict__ self !! "__node__" = Some (PNode n) →
  save (self, w) = (r, s') →
  s'.1 = self ∧ nodes s'.2 = <[n := properties self]> (nodes w).
Proof.
  intros Hn.
  destruct (lookup_mro (mro (__class__ self)) "index") as [[owner a]|] eqn:Hidx.
  1: destruct a as [| | | | |idx|].
  6:{ destruct (save_persisted self w n owner idx Hn Hidx) as (w2 & Hnodes & _ & _ & ->).
      unfold bind. destruct (_update_index (properties self) (self, w2)) as [[[]|e] s2] eqn:E;
        apply update_index_inv in E as (Hs & ((Hn2 & _) & _) & _);
        unfold gets; intros [= <- <-]; simpl; split; congruence. }
  all: unfold save; unfold bind at 1; unfold get_node;
    unfold bind at 1, gets at 1; cbn [fst]; rewrite Hn; unfold ret at 1; cbn [truthy];
    unfold bind at 1; unfold bind at 1; unfold gets at 1; cbn [fst];
    unfold bind at 1; unfold on_world at 1;
    unfold bind at 1; unfold on_world at 1; unfold class_index; rewrite Hidx;
    intros [= <- <-]; done.
Qed.

(** C6, as the specification words it, fails: [nickname], an
    unrecognised key accepted by the constructor, is part of the
    snapshot of [bob]. *)
Lemma snapshot_holds_undeclared_attribute :
  new Person (<["name" := PStr "bob"]> {["nickname" := PStr "bobby"]}) = Ok bob ∧
  ¬ snapshot_only_declared bob.
Proof.
  split; [vm_compute; reflexivity|].
  intros H. destruct (H "nickname" (PStr "bobby")) as [p Hp]; [vm_compute; reflexivity|].
  vm_compute in Hp. discriminate.
Qed.

(** C6, amended: the snapshot holds exactly the attributes of the
    instance, declared or not, whose name has no private prefix and
    whose value is neither null, nor a bound method, nor a relationship
    manager.  An unrecognised key accepted at construction with such a
    value is therefore part of it.  The snapshot is the payload written
    to the store: a successful [save] of a transient instance leaves a
    new node holding it, and a [save] of a persisted instance replaces
    the properties of its node by it. *)
Theorem properties_snapshot :
  (∀ self k v,
     properties self !! k = Some v ↔
     __dict__ self !! k = Some v ∧ startswith_underscore k = false ∧
     v ≠ PMethod ∧ v ≠ PRelationshipManager ∧ v ≠ PNone) ∧
  (∀ cls kwargs inst k v,
     new cls kwargs = Ok inst → kwargs !! k = Some v → getattr_class cls k = None →
     startswith_underscore k = false →
     v ≠ PMethod → v ≠ PRelationshipManager → v ≠ PNone →
     properties inst !! k = Some v) ∧
  (∀ self w inst s',
     __dict__ self !! "__node__" = Some PNone → save (self, w) = (Ok inst, s') →
     ∃ n, __dict__ inst !! "__node__" = Some (PNode n) ∧
          nodes s'.2 !! n = Some (properties self)) ∧
  (∀ self w n r s',
     __dict__ self !! "__node__" = Some (PNode n) → save (self, w) = (r, s') →
     nodes s'.2 !! n = Some (properties self)).
Proof.
  split_and!.
  - apply properties_lookup.
  - intros cls kwargs inst k v Hnew Hk Hcls Hpub H1 H2 H3.
    apply properties_lookup. split_and!; try done.
    apply new_Ok_init in Hnew. apply init_inv in Hnew.
    destruct (for_each (map_to_list kwargs) _ _) as [[[]|e] s1]; [|done].
    destruct Hnew as [(? & ? & [=] & _)|[_ [[[=] _]|(_ & _ & _ & _ & Hc & _)]]].
    assert (Hown : cls_dict cls !! k = None).
    { revert Hcls. unfold getattr_class, mro. simpl. by destruct (cls_dict cls !! k). }
    apply Hc; [by apply public_not_node|congruence|done].
  - intros self w inst s' Hn. rewrite (save_transient self w PNone) by done.
    unfold bind. destruct (_create (properties self) (self, w)) as [[[]|e] [self1 w1]] eqn:E;
      [|done].
    apply create_ok_inv in E as (n & -> & Hnodes). unfold gets. intros [= <- <-].
    exists n. split; [apply lookup_insert_eq|done].
  - intros self w n r s' Hn Hsave.
    apply (save_persisted_nodes _ _ _ _ _ Hn) in Hsave as [_ ->]. apply lookup_insert_eq.
Qed.

(** [bob.properties] holds the undeclared [nickname]. *)
Lemma properties_snapshot_witness :
  properties bob !! "nickname" = Some (PStr "bobby").
Proof.
  apply (proj1 (proj2 properties_snapshot) Person
           (<["name" := PStr "bob"]> {["nickname" := PStr "bobby"]}) bob);
    try discriminate; vm_compute; reflexivity.
Defined.

(** C7: [save].  With a handle [n]: the properties of the node are
    replaced by the snapshot, the entries of [n] are removed from the
    index of the instance's own class and from no other index, and the
    index update is re-run from there; whatever its outcome, the node
    holds the snapshot, the entries other indexes had are still there,
    and every entry the own index has for [n] comes from the snapshot.
    Without a handle [save] is the create path.  In both cases a [save]
    that returns, returns the instance itself. *)
Theorem save_contract (self : Instance) (w : World) :
  (∀ n owner idx,
     __dict__ self !! "__node__" = Some (PNode n) →
     lookup_mro (mro (__class__ self)) "index" = Some (owner, AIndexManager idx) →
     ∃ w2,
       nodes w2 = <[n := properties self]> (nodes w) ∧
       (∀ e, e ∈ entries_of idx w2 ↔ e ∈ entries_of idx w ∧ ie_node e ≠ n) ∧
       (∀ i, i ≠ idx → entries_of i w2 = entries_of i w) ∧
       save (self, w) = (let! _ := _update_index (properties self) in gets fst) (self, w2) ∧
       ∀ r s', save (self, w) = (r, s') →
         s'.1 = self ∧
         nodes s'.2 = <[n := properties self]> (nodes w) ∧
         (∀ i e, i ≠ idx → e ∈ entries_of i w → e ∈ entries_of i s'.2) ∧
         (∀ e, e ∈ entries_of idx s'.2 → ie_node e = n →
               properties self !! ie_key e = Some (ie_value e)) ∧
         match r with Ok inst => inst = self | Raise _ => True end) ∧
  (∀ v,
     __dict__ self !! "__node__" = Some v → truthy v = false →
     save (self, w) = (let! _ := _create (properties self) in gets fst) (self, w) ∧
     ∀ inst s', save (self, w) = (Ok inst, s') →
       inst = s'.1 ∧
       ∃ n, inst = set_dict <["__node__" := PNode n]> self ∧
            nodes s'.2 !! n = Some (properties self)).
Proof.
  split.
  - intros n owner idx Hn Hidx.
    destruct (save_persisted self w n owner idx Hn Hidx) as (w2 & Hnodes & Hown & Hother & Hsave).
    exists w2. split_and!; try done.
    intros r s'. rewrite Hsave. unfold bind.
    destruct (_update_index (properties self) (self, w2)) as [r1 [self1 w1]] eqn:E.
    apply update_index_inv in E as (Hs & ((Hn2 & _) & _ & Hkeep & Hnew) & _).
    simpl in *. subst self1.
    assert (Hfacts :
      nodes w1 = <[n := properties self]> (nodes w) ∧
      (∀ i e, i ≠ idx → e ∈ entries_of i w → e ∈ entries_of i w1) ∧
      (∀ e, e ∈ entries_of idx w1 → ie_node e = n →
            properties self !! ie_key e = Some (ie_value e))).
    { split_and!.
      - congruence.
      - intros i e Hi He. apply Hkeep. by rewrite Hother.
      - intros e He Hnode. apply Hnew in He as [He|[_ He]].
        + apply Hown in He as [_ He]. done.
        + by apply elem_of_map_to_list in He. }
    destruct Hfacts as (F1 & F2 & F3).
    destruct r1 as [[]|e]; unfold gets; intros [= <- <-]; simpl; by split_and!.
  - intros v Hv Ht. split; [by apply (save_transient self w v)|].
    intros inst s'. rewrite (save_transient self w v) by done.
    unfold bind. destruct (_create (properties self) (self, w)) as [[[]|e] [self1 w1]] eqn:E;
      [|done].
    apply create_ok_inv in E as (n & -> & Hnodes). unfold gets. intros [= <- <-].
    split; [done|]. by exists n.
Qed.

(** Saving alice a second time, and saving her for the first time. *)
Lemma save_contract_witness :
  (∃ w2, save (alice_saved, store_with_alice)
         = (let! _ := _update_index (properties alice_saved) in gets fst) (alice_saved, w2)) ∧
  save (alice, fresh_world true)
  = (let! _ := _create (properties alice) in gets fst) (alice, fresh_world true).
Proof.
  split.
  - destruct (proj1 (save_contract alice_saved store_with_alice) 1 Person "Person")
      as (w2 & _ & _ & _ & H & _); [vm_compute; reflexivity..|].
    by exists w2.
  - apply (proj2 (save_contract alice (fresh_world true)) PNone); vm_compute; reflexivity.
Defined.

(** ** The category registry *)

Lemma category_factory_cached cls w c :
  cached w (cls_name cls) c → category_factory cls w = (Ok c, w).
Proof.
  intros (m & Hm & Hc). unfold category_factory.
  unfold bind at 1, gets at 1. rewrite Hm. unfold bind at 1, ret at 1.
  unfold bind at 1, gets at 1. rewrite Hm. cbn [default from_option id].
  assert (Hdom : cls_name cls ∈ dom m) by (apply elem_of_dom; eauto).
  rewrite (bool_decide_eq_true_2 _ Hdom). cbn [negb].
  unfold bind at 1, ret at 1. unfold bind at 1, gets at 1. rewrite Hm. cbn [default from_option id].
  by rewrite Hc.
Qed.

Lemma category_factory_fresh cls w :
  default ∅ (category_cache w) !! cls_name cls = None →
  ∃ c w1,
    category_factory cls w = (Ok c, w1) ∧
    cat_name c = cls_name cls ∧ cat_oid c = next_oid w ∧
    journal w1 = (journal w ++ [CGetOrCreateIndex "Category";
                               CIndexGetOrCreate "Category" "category"
                                 (PStr (cls_name cls))])%list ∧
    category_cache w1 = Some (<[cls_name cls := c]> (default ∅ (category_cache w))).
Proof.
  intros Hfresh.
  assert (Hdom : cls_name cls ∉ dom (default ∅ (category_cache w))).
  { by apply not_elem_of_dom. }
  unfold category_factory.
  unfold bind at 1, gets at 1.
  unfold bind at 1.
  destruct (category_cache w) as [m|] eqn:Hm; cbn [default from_option id] in *.
  - unfold ret at 1. unfold bind at 1, gets at 1. rewrite Hm. cbn [default from_option id].
    rewrite (bool_decide_eq_false_2 _ Hdom). cbn [negb].
    unfold bind at 1. unfold bind at 1.
    unfold get_or_create_index. unfold bind at 1. unfold remote at 1, modify at 1.
    unfold bind at 1, modify at 1. unfold ret at 1.
    unfold bind at 1. unfold index_get_or_create.
    unfold bind at 1. unfold remote at 1, modify at 1.
    destruct (List.find _ _); unfold bind at 1, gets at 1; unfold bind at 1, modify at 1;
      unfold modify at 1; unfold bind at 1, gets at 1; simpl;
      rewrite Hm; simpl; rewrite lookup_insert_eq;
      eexists _, _; (split; [reflexivity|]); simpl; split_and!; try done;
      by rewrite <- app_assoc.
  - unfold modify at 1. unfold bind at 1, gets at 1. cbn [set_category_cache category_cache default from_option id].
    rewrite (bool_decide_eq_false_2 _ Hdom). cbn [negb].
    unfold bind at 1. unfold bind at 1.
    unfold get_or_create_index. unfold bind at 1. unfold remote at 1, modify at 1.
    unfold bind at 1, modify at 1. unfold ret at 1.
    unfold bind at 1. unfold index_get_or_create.
    unfold bind at 1. unfold remote at 1, modify at 1.
    destruct (List.find _ _); unfold bind at 1, gets at 1; unfold bind at 1, modify at 1;
      unfold modify at 1; unfold bind at 1, gets at 1; simpl;
      rewrite lookup_insert_eq;
      eexists _, _; (split; [reflexivity|]); simpl; split_and!; try done;
      by rewrite <- app_assoc.
Qed.

(** One call: it returns, what it returns is cached afterwards, cached
    objects stay, and a remote get-or-create is issued exactly when the
    name enters the cache. *)
Lemma category_factory_step cls w :
  ∃ c w1,
    category_factory cls w = (Ok c, w1) ∧
    cached w1 (cls_name cls) c ∧
    (∀ name c0, cached w name c0 → cached w1 name c0) ∧
    (∀ name, category_creations name w1 + known w name
             = category_creations name w + known w1 name).
Proof.
  destruct (default ∅ (category_cache w) !! cls_name cls) as [c|] eqn:E.
  - assert (Hc : cached w (cls_name cls) c).
    { destruct (category_cache w) as [m|] eqn:Hm; simpl in E; [by exists m|].
      by rewrite lookup_empty in E. }
    exists c, w. split_and!; try done. by apply category_factory_cached.
  - destruct (category_factory_fresh cls w E) as (c & w1 & Hcall & Hname & _ & Hj & Hcache).
    exists c, w1. split_and!; try done.
    + eexists. split; [exact Hcache|]. apply lookup_insert_eq.
    + intros name c0 (m & Hm & Hc0). eexists. split; [exact Hcache|].
      rewrite Hm in *. simpl in *. rewrite lookup_insert_ne; [done|]. congruence.
    + intros name. unfold category_creations, known. rewrite Hj, Hcache.
      rewrite List.filter_app, length_app. simpl.
      destruct (decide (name = cls_name cls)) as [->|Hne].
      * rewrite E, lookup_insert_eq.
        rewrite (bool_decide_eq_true_2 _ (conj eq_refl (conj eq_refl eq_refl))). simpl. lia.
      * rewrite lookup_insert_ne by done.
        rewrite bool_decide_eq_false_2; [simpl; lia|]. intros (_ & _ & [=]). done.
Qed.

Lemma categories_for_inv (l : list class) w :
  ∃ cs w',
    categories_for l w = (Ok cs, w') ∧
    Forall2 (λ cls c, cached w' (cls_name cls) c) l cs ∧
    (∀ name c0, cached w name c0 → cached w' name c0) ∧
    (∀ name, category_creations name w' + known w name
             = category_creations name w + known w' name).
Proof.
  revert w. induction l as [|cls l IH]; intros w.
  - exists [], w. split_and!; [done|constructor|done|]. intros name. lia.
  - destruct (category_factory_step cls w) as (c & w1 & Hcall & Hc & Hkeep1 & Hcount1).
    destruct (IH w1) as (cs & w' & Hrest & Hall & Hkeep & Hcount).
    exists (c :: cs), w'. split_and!.
    + unfold categories_for in *. simpl. unfold bind at 1. rewrite Hcall.
      unfold bind at 1. rewrite Hrest. done.
    + constructor; [by apply Hkeep|done].
    + intros name c0 H. by apply Hkeep, Hkeep1.
    + intros name. specialize (Hcount1 name). specialize (Hcount name). lia.
Qed.

(** C8: [category_factory] is memoized per type name.  A call for a
    name that is not cached performs the remote get-or-create and
    caches the category object it builds; a call for a cached name
    returns that very object and leaves the world, journal included, as
    it was, so no remote call is made.  Hence, in a process that starts
    without a cache, any series of calls issues at most one remote
    get-or-create per type name, and calls for the same type name get
    the same object. *)
Theorem category_memoized :
  (∀ cls w,
     default ∅ (category_cache w) !! cls_name cls = None →
     ∃ c w1,
       category_factory cls w = (Ok c, w1) ∧
       journal w1 = (journal w ++ [CGetOrCreateIndex "Category";
                                  CIndexGetOrCreate "Category" "category"
                                    (PStr (cls_name cls))])%list ∧
       cached w1 (cls_name cls) c) ∧
  (∀ cls w c w1,
     category_factory cls w = (Ok c, w1) →
     ∀ cls', cls_name cls' = cls_name cls → category_factory cls' w1 = (Ok c, w1)) ∧
  (∀ l w,
     category_cache w = None →
     ∃ cs w',
       categories_for l w = (Ok cs, w') ∧
       (∀ name, (category_creations name w' ≤ category_creations name w + 1)%nat) ∧
       (∀ i j ci cj c c',
          l !! i = Some ci → l !! j = Some cj → cls_name ci = cls_name cj →
          cs !! i = Some c → cs !! j = Some c' → c = c')).
Proof.
  split_and!.
  - intros cls w Hfresh.
    destruct (category_factory_fresh cls w Hfresh) as (c & w1 & Hcall & _ & _ & Hj & Hcache).
    exists c, w1. split_and!; try done. eexists. split; [exact Hcache|]. apply lookup_insert_eq.
  - intros cls w c w1 Hcall cls' Hname.
    destruct (category_factory_step cls w) as (c0 & w0 & Hcall0 & Hc & _).
    rewrite Hcall in Hcall0. injection Hcall0 as <- <-.
    apply category_factory_cached. by rewrite Hname.
  - intros l w Hnone.
    destruct (categories_for_inv l w) as (cs & w' & Hrun & Hall & _ & Hcount).
    exists cs, w'. split_and!; [done| |].
    + intros name. specialize (Hcount name).
      assert (known w name = 0) as Hk0.
      { unfold known. rewrite Hnone. simpl. by rewrite lookup_empty. }
      assert (known w' name ≤ 1)%nat.
      { unfold known. destruct (_ !! name); lia. }
      lia.
    + intros i j ci cj c c' Hi Hj Hname Hc Hc'.
      destruct (Forall2_lookup_lr _ _ _ _ _ _ Hall Hi Hc) as (m & Hm & Hlook).
      destruct (Forall2_lookup_lr _ _ _ _ _ _ Hall Hj Hc') as (m' & Hm' & Hlook').
      rewrite Hname in Hlook. congruence.
Qed.

(** Two record types named [Person] asked for in turn from a fresh
    process. *)
Lemma category_memoized_witness :
  ∃ c w1,
    category_factory Person (fresh_world true) = (Ok c, w1) ∧
    category_factory Person w1 = (Ok c, w1) ∧
    (category_creations "Person" w1 ≤ 1)%nat.
Proof.
  destruct (proj1 category_memoized Person (fresh_world true)) as (c & w1 & Hcall & Hj & _).
  { vm_compute. reflexivity. }
  exists c, w1. split_and!; [done| |].
  - by apply (proj1 (proj2 category_memoized) Person (fresh_world true) c w1 Hcall Person).
  - destruct (proj2 (proj2 category_memoized) [Person] (fresh_world true))
      as (cs & w' & Hrun & Hcount & _); [reflexivity|].
    unfold categories_for in Hrun. simpl in Hrun. unfold bind at 1 in Hrun.
    rewrite Hcall in Hrun. injection Hrun as _ <-.
    apply (Hcount "Person").
Defined.

(** ** Reconstruction of search results *)

Lemma search_checks_inv cls (l : list (string * pyvalue)) (w : World) r w' :
  for_each l
    (λ '(k, v),
       let! p := lift (get_property cls k) in
       if negb (attr_truthy p) then raise (NoSuchProperty (Some k))
       else match p with
            | AProperty p =>
                if negb (is_indexed p) then raise (PropertyNotIndexed k)
                else match validate p with
                     | Some f => call_validate f v
                     | None => raise (AttributeError "validate")
                     end
            | _ => raise (AttributeError "is_indexed")
            end) w = (r, w') →
  w' = w.
Proof.
  revert r w'. induction l as [|[k v] l IH]; intros r w'; simpl.
  - unfold ret. by intros [= _ <-].
  - unfold bind at 1.
    destruct ((let! p := lift (get_property cls k) in _) w) as [r1 w1] eqn:E1.
    assert (w1 = w) as ->.
    { revert E1. unfold bind, lift. destruct (get_property cls k) as [a|e]; [|by intros [= _ <-]].
      destruct (negb (attr_truthy a)); [by intros [= _ <-]|].
      destruct a as [p| | | | | |]; try by intros [= _ <-].
      destruct (negb (is_indexed p)); [by intros [= _ <-]|].
      destruct (validate p) as [f|]; [|by intros [= _ <-]].
      unfold call_validate. destruct (f v); by intros [= _ <-]. }
    destruct r1 as [[]|e]; [apply IH|by intros [= _ <-]].
Qed.

Lemma dict_zip_lookup (f : entity_id → gmap string pyvalue) (l : list entity_id) n :
  dict_zip l (f <$> l) !! n = if bool_decide (n ∈ l) then Some (f n) else None.
Proof.
  unfold dict_zip.
  assert (H : ∀ acc : gmap entity_id (gmap string pyvalue),
            foldl (λ m '(n, p), <[n := p]> m) acc (zip l (f <$> l)) !! n
            = if bool_decide (n ∈ l) then Some (f n) else acc !! n).
  { induction l as [|x l IH]; intros acc; simpl; [done|].
    rewrite IH. destruct (decide (n = x)) as [->|Hne].
    - rewrite (bool_decide_eq_true_2 (x ∈ x :: l)) by (by left).
      rewrite lookup_insert_eq. by case_bool_decide.
    - rewrite lookup_insert_ne by done.
      case_bool_decide as H1; case_bool_decide as H2; try done.
      + exfalso. apply H2. by right.
      + apply elem_of_cons in H2 as [?|?]; done. }
  rewrite H. by rewrite lookup_empty.
Qed.

Lemma rebuild_inv cls (l : list (entity_id * gmap string pyvalue)) (w : World) insts w' :
  for_collect l
    (λ '(node, properties),
       let! neonode := lift (new cls properties) in
       match __setattr__ "__node__" (PNode node) neonode with
       | (Ok _, neonode) => ret neonode
       | (Raise e, _) => raise e
       end) w = (Ok insts, w') →
  w' = w ∧
  Forall2 (λ '(node, properties) inst,
             ∃ inst0, new cls properties = Ok inst0 ∧
                      inst = set_dict <["__node__" := PNode node]> inst0) l insts.
Proof.
  revert insts w'. induction l as [|[n p] l IH]; intros insts w'; simpl.
  - unfold ret. intros [= <- <-]. split; [done|constructor].
  - unfold bind at 1. unfold bind at 1, lift at 1.
    destruct (new cls p) as [inst0|e] eqn:Enew; [|done].
    destruct (__setattr__ "__node__" (PNode n) inst0) as [[[]|e] inst1] eqn:E; [|done].
    apply setattr_inv in E as [[_ ->]|(? & [=] & _)].
    unfold ret at 1. unfold bind at 1.
    destruct (for_collect l _ w) as [[rest|e] w1]; [|done].
    destruct (IH _ _ eq_refl) as [-> Hall]. unfold ret. intros [= <- <-].
    split; [done|]. constructor; [by exists inst0|done].
Qed.

(** C9, as the specification words it, fails: node 7 matches
    [age = 30], but its stored data lacks the required [name], and
    [search] reconstructs through the normal constructor, which raises
    [RequiredProperty]; no instance comes back for the matched node. *)
Lemma search_validates_stored_data :
  index_hits "Person" (Q "age" (PInt 30)) store_with_legacy_node = [7] ∧
  (search Person_index (Some (Q "age" (PInt 30))) ∅ store_with_legacy_node).1
  = Raise (RequiredProperty "name") ∧
  ¬ every_match_reconstructed Person_index (Q "age" (PInt 30)) store_with_legacy_node.
Proof.
  split_and!; [vm_compute; reflexivity..|].
  intros H. destruct (H 7) as (insts & w' & Hs & _).
  - vm_compute. by left.
  - vm_compute in Hs. discriminate.
Qed.

(** C9, amended: every instance [search] returns is the result of
    calling the record type on the stored properties of a matched node
    (the normal constructor, with its assignment validation and its
    required-property check), with the handle then set to that node;
    the instances returned correspond one to one to the matched nodes.
    So [search] returns only if the constructor accepts the stored data
    of every matched node. *)
Theorem search_reconstructs (self : NodeIndexManager) (q : option query)
    (kwargs : gmap string pyvalue) (w : World) (insts : list Instance) (w' : World) :
  search self q kwargs w = (Ok insts, w') →
  ∃ q',
    effective_query q kwargs = Some q' ∧
    (∀ n, n ∈ index_hits (name self) q' w ↔
          ∃ inst, inst ∈ insts ∧ __dict__ inst !! "__node__" = Some (PNode n)) ∧
    (∀ inst, inst ∈ insts →
       ∃ n inst0,
         n ∈ index_hits (name self) q' w ∧
         new (node_class self) (default ∅ (nodes w !! n)) = Ok inst0 ∧
         inst = set_dict <["__node__" := PNode n]> inst0).
Proof.
  unfold search. unfold bind at 1.
  destruct (for_each (map_to_list kwargs) _ w) as [[[]|e] w1] eqn:E1; [|done].
  apply search_checks_inv in E1 as ->.
  unfold bind at 1.
  assert (Hq : ∀ r w2,
    match q with
    | Some q0 => ret q0
    | None =>
        match (λ '(k, v), Q k v) <$> map_to_list kwargs with
        | [] => raise (TypeError "reduce() of empty sequence with no initial value")
        | q0 :: r => ret (foldl QAnd q0 r)
        end
    end w = (r, w2) →
    w2 = w ∧ match r with Ok q' => effective_query q kwargs = Some q' | Raise _ => True end).
  { intros r w2. unfold effective_query. destruct q as [q0|].
    - unfold ret. by intros [= <- <-].
    - destruct (_ <$> map_to_list kwargs); unfold ret, raise; by intros [= <- <-]. }
  destruct (match q with Some q0 => ret q0 | None => _ end w) as [[q'|e] w2]; [|done].
  destruct (Hq _ _ eq_refl) as [-> Heff]. clear Hq.
  unfold bind at 1. unfold _index, get_or_create_index.
  unfold bind at 1. unfold remote at 1, modify at 1.
  unfold bind at 1. unfold modify at 1. unfold ret at 1.
  unfold bind at 1. unfold index_query. unfold bind at 1. unfold remote at 1, modify at 1.
  unfold gets at 1.
  unfold bind at 1. unfold get_properties. unfold bind at 1. unfold remote at 1, modify at 1.
  unfold gets at 1. cbn [nodes set_indexes].
  match goal with |- context [index_hits (name self) q' ?w0] =>
    assert (Hhits : index_hits (name self) q' w0 = index_hits (name self) q' w) end.
  { unfold index_hits, entries_of. simpl.
    destruct (indexes w !! name self) eqn:E; [by rewrite E|]. by rewrite lookup_insert_eq. }
  rewrite !Hhits.
  set (hits := index_hits (name self) q' w).
  set (stored := λ n : entity_id, default ∅ (nodes w !! n)).
  intros H. apply rebuild_inv in H as [_ Hall].
  assert (Hpairs : ∀ n p, (n, p) ∈ map_to_list (dict_zip hits (stored <$> hits))
                          ↔ n ∈ hits ∧ p = stored n).
  { intros n p. rewrite elem_of_map_to_list, dict_zip_lookup.
    case_bool_decide; naive_solver. }
  exists q'. split_and!; [done| |].
  - intros n. split.
    + intros Hn. assert (Hin : (n, stored n) ∈ map_to_list (dict_zip hits (stored <$> hits))).
      { by apply Hpairs. }
      apply list_elem_of_lookup in Hin as [i Hi].
      destruct (Forall2_lookup_l _ _ _ _ _ Hall Hi) as (inst & Hinst & inst0 & _ & ->).
      exists (set_dict <["__node__" := PNode n]> inst0). split.
      * by apply list_elem_of_lookup_2 in Hinst.
      * apply lookup_insert_eq.
    + intros (inst & Hin & Hnode).
      apply list_elem_of_lookup in Hin as [i Hi].
      destruct (Forall2_lookup_r _ _ _ _ _ Hall Hi) as ([m p] & Hp & inst0 & _ & ->).
      simpl in Hnode. rewrite lookup_insert_eq in Hnode. injection Hnode as ->.
      apply list_elem_of_lookup_2 in Hp. by apply Hpairs in Hp as [? _].
  - intros inst Hin.
    apply list_elem_of_lookup in Hin as [i Hi].
    destruct (Forall2_lookup_r _ _ _ _ _ Hall Hi) as ([m p] & Hp & inst0 & Hnew & ->).
    apply list_elem_of_lookup_2 in Hp. apply Hpairs in Hp as [Hm ->].
    by exists m, inst0.
Qed.

(** Searching alice by name in the store that holds her. *)
Lemma search_reconstructs_witness :
  ∃ q',
    effective_query None {["name" := PStr "alice"]} = Some q' ∧
    (∀ n, n ∈ index_hits "Person" q' store_with_alice ↔
          ∃ inst, inst ∈ [alice_saved] ∧ __dict__ inst !! "__node__" = Some (PNode n)) ∧
    (∀ inst, inst ∈ [alice_saved] →
       ∃ n inst0,
         n ∈ index_hits "Person" q' store_with_alice ∧
         new Person (default ∅ (nodes store_with_alice !! n)) = Ok inst0 ∧
         inst = set_dict <["__node__" := PNode n]> inst0).
Proof.
  eapply (search_reconstructs Person_index None {["name" := PStr "alice"]} store_with_alice).
  vm_compute. reflexivity.
Defined.

(** ** The index update *)

Lemma update_classes_stop pre root post props s :
  cls_name root = "StructuredNode" ∨ cls_name root = "ReadOnlyNode" →
  update_classes (pre ++ root :: post) props s = update_classes pre props s.
Proof.
  intros Hroot. revert s. induction pre as [|cls pre IH]; intros s; simpl.
  - destruct Hroot as [-> | ->]; done.
  - destruct (_ || _); [done|].
    unfold bind. destruct (fill_batch cls (map_to_list props) [] s) as [[batch|e] s1]; [|done].
    destruct (submit_checked batch s1) as [[[]|e] s2]; [|done]. apply IH.
Qed.

Lemma class_index_resolved cls owner idx self w :
  lookup_mro (mro cls) "index" = Some (owner, AIndexManager idx) →
  ∃ w', on_world (class_index cls) (self, w) = (Ok idx, (self, w')) ∧ same_graph w w'.
Proof.
  intros Hidx. unfold on_world, class_index. rewrite Hidx. unfold _index. cbn [name].
  destruct (get_or_create_index idx w) as [r w'] eqn:E.
  apply (get_or_create_index_inv (λ _, True)) in E as [-> (Hg & _)]. by exists w'.
Qed.

Lemma get_node_resolved self w n :
  __dict__ self !! "__node__" = Some (PNode n) →
  get_node (self, w) = (Ok (PNode n), (self, w)).
Proof. intros Hn. unfold get_node. unfold bind, gets. cbn [fst]. by rewrite Hn. Qed.

Lemma index_item_exact cls owner idx self n batch key value w :
  lookup_mro (mro cls) "index" = Some (owner, AIndexManager idx) →
  __dict__ self !! "__node__" = Some (PNode n) →
  (∀ a, cls_dict cls !! key = Some a → is_Property a = true) →
  ∃ w', index_item cls batch key value (self, w)
        = (Ok (batch ++ option_list
                 (expected_entry cls (supports_index_uniqueness_modes w) idx n (key, value)))%list,
           (self, w')) ∧
        same_graph w w'.
Proof.
  intros Hidx Hn Hprop. unfold index_item, expected_entry.
  destruct (cls_dict cls !! key) as [a|] eqn:Ha.
  2:{ rewrite bool_decide_eq_false_2 by (by apply not_elem_of_dom).
      exists w. simpl. rewrite app_nil_r. split; [done|apply same_graph_refl]. }
  rewrite bool_decide_eq_true_2 by (apply elem_of_dom; eauto).
  specialize (Hprop a eq_refl). destruct a as [p| | | | | |]; try done.
  unfold bind at 1, lift at 1. unfold get_property. rewrite (getattr_class_own _ _ _ Ha).
  destruct (class_index_resolved cls owner idx self w Hidx) as (w1 & Hc1 & Hg1).
  destruct (unique_index p).
  - unfold try_except. unfold bind at 1. rewrite Hc1.
    unfold bind at 1. rewrite (get_node_resolved self w1 n Hn).
    unfold batch_add_indexed_node_or_fail. unfold bind at 1, gets at 1.
    assert (Hg1' := Hg1). destruct Hg1' as (_ & _ & _ & Hs1 & _). rewrite Hs1.
    destruct (supports_index_uniqueness_modes w) eqn:Hs.
    + exists w1. split; [reflexivity|done].
    + unfold raise at 1.
      destruct (class_index_resolved cls owner idx self w1 Hidx) as (w2 & Hc2 & Hg2).
      unfold bind at 1. rewrite Hc2.
      unfold bind at 1. rewrite (get_node_resolved self w2 n Hn).
      exists w2. split; [reflexivity|].
      by eapply same_graph_trans.
  - destruct (index p).
    + unfold bind at 1. rewrite Hc1.
      unfold bind at 1. rewrite (get_node_resolved self w1 n Hn).
      exists w1. split; [reflexivity|]. done.
    + exists w. simpl. rewrite app_nil_r. split; [done|apply same_graph_refl].
Qed.

Lemma fill_batch_exact cls owner idx self n items batch w :
  lookup_mro (mro cls) "index" = Some (owner, AIndexManager idx) →
  __dict__ self !! "__node__" = Some (PNode n) →
  (∀ key value a, (key, value) ∈ items → cls_dict cls !! key = Some a →
                  is_Property a = true) →
  ∃ w', fill_batch cls items batch (self, w)
        = (Ok (batch ++ omap (expected_entry cls (supports_index_uniqueness_modes w) idx n)
                          items)%list,
           (self, w')) ∧
        same_graph w w'.
Proof.
  intros Hidx Hn. revert batch w.
  induction items as [|[key value] items IH]; intros batch w Hprop.
  - exists w. simpl. rewrite app_nil_r. split; [done|apply same_graph_refl].
  - destruct (index_item_exact cls owner idx self n batch key value w Hidx Hn)
      as (w1 & Hitem & Hg1).
    { intros a. apply (Hprop key value). by left. }
    destruct (IH (batch ++ option_list
                    (expected_entry cls (supports_index_uniqueness_modes w) idx n
                       (key, value)))%list w1)
      as (w2 & Hrest & Hg2).
    { intros k v a Hin. apply (Hprop k v). by right. }
    exists w2. split; [|by eapply same_graph_trans].
    cbn [fill_batch]. unfold bind at 1. rewrite Hitem, Hrest.
    destruct Hg1 as (_ & _ & _ & -> & _). rewrite <- app_assoc.
    cbn [omap list_omap]. do 2 f_equal. f_equal.
    by destruct (expected_entry _ _ _ _ _).
Qed.

Lemma check_results_inv (rs : list batch_result) (s : Instance * World) :
  for_each rs (λ r, if (status r =? 200)%Z
                    then raise (NotUnique ("A supplied value is not unique" +:+ uri r))
                    else ret tt) s
  = match List.find (λ r, (status r =? 200)%Z) rs with
    | Some r => (Raise (NotUnique ("A supplied value is not unique" +:+ uri r)), s)
    | None => (Ok tt, s)
    end.
Proof.
  induction rs as [|r rs IH]; simpl; [done|].
  unfold bind at 1. destruct (status r =? 200)%Z; [done|]. unfold ret at 1. apply IH.
Qed.


